(** * Debug-print wrapping scripts: a shallow embedding and its properties

    The repository ships two scripts that put Swift [print(] statements
    between [#if DEBUG] and [#endif]:

    - [wrap_prints.py]       (functions [should_keep_in_production],
                              [is_already_wrapped], [process_file], [main]);
    - [wrap_debug_prints.py] (functions [process_swift_file], [main]).

    Both are embedded below, function by function.  A Python [str] is a
    sequence of Unicode code points, so a line is a list of code points;
    a list of lines is a [list str].  Code that can raise returns an
    [option] (for [IndexError]) or a sum (for the I/O exceptions caught
    in [main]). *)

From Stdlib Require Import String Ascii.
From Stdlib Require Import List Arith Lia Bool NArith.
Import ListNotations.

Set Implicit Arguments.

(* ================================================================== *)
(** ** Python strings *)
(* ================================================================== *)

Module PyStr.

(** A code point, and a [str] as the sequence of its code points. *)
Definition char := N.
Definition str := list char.

(** An ASCII literal of the scripts, as a [str]. *)
Definition lit (s : string) : str :=
  map N_of_ascii (list_ascii_of_string s).

(** [s.startswith(prefix)] *)
Fixpoint startswith (s prefix : str) : bool :=
  match prefix with
  | [] => true
  | p :: prefix' =>
      match s with
      | [] => false
      | c :: s' => N.eqb c p && startswith s' prefix'
      end
  end.

(** [needle in hay]: substring test. *)
Fixpoint contains (needle hay : str) : bool :=
  startswith hay needle ||
  match hay with
  | [] => false
  | _ :: hay' => contains needle hay'
  end.

(** [c.isspace()] for one code point, the set [str.strip] removes:
    the ASCII controls TAB..CR and FS..US, the space, NEL, NBSP and the
    Unicode space separators. *)
Definition isspace (c : char) : bool :=
  (((9 <=? c) && (c <=? 13)) || ((28 <=? c) && (c <=? 32)) ||
   (c =? 133) || (c =? 160) || (c =? 5760) ||
   ((8192 <=? c) && (c <=? 8202)) ||
   (c =? 8232) || (c =? 8233) || (c =? 8239) || (c =? 8287) ||
   (c =? 12288))%N.

(** [s.lstrip()], [s.rstrip()], [s.strip()] *)
Fixpoint lstrip (s : str) : str :=
  match s with
  | [] => []
  | c :: s' => if isspace c then lstrip s' else s
  end.

Definition rstrip (s : str) : str := rev (lstrip (rev s)).

Definition strip (s : str) : str := rstrip (lstrip s).

(** [' ' * n] *)
Definition SPACE : char := 32%N.
Definition NEWLINE : char := 10%N.
Definition TAB : char := 9%N.
Definition QUOTE : char := 34%N.

Definition spaces (n : nat) : str := repeat SPACE n.

(** [range(a, b)] *)
Definition range (a b : nat) : list nat := seq a (b - a).

(** [lines[a:b]] for [0 <= a], [0 <= b] *)
Definition slice (A : Type) (l : list A) (a b : nat) : list A :=
  firstn (b - a) (skipn a l).

(** [f.readlines()] on decoded text: every line keeps its terminating
    newline; a last line without one is returned as it is. *)
Fixpoint readlines_from (cur : str) (text : str) : list str :=
  match text with
  | [] => match cur with [] => [] | _ => [rev cur] end
  | c :: text' =>
      if N.eqb c NEWLINE then rev (c :: cur) :: readlines_from [] text'
      else readlines_from (c :: cur) text'
  end.

Definition readlines (text : str) : list str := readlines_from [] text.

(** [f.writelines(lines)]: the lines written one after the other, nothing
    added between them. *)
Definition writelines (lines : list str) : str := concat lines.

(** [content.split('\n')] *)
Fixpoint split_from (cur : str) (text : str) : list str :=
  match text with
  | [] => [rev cur]
  | c :: text' =>
      if N.eqb c NEWLINE then rev cur :: split_from [] text'
      else split_from (c :: cur) text'
  end.

Definition split_newline (text : str) : list str := split_from [] text.

(** ['\n'.join(lines)] *)
Fixpoint join_newline (lines : list str) : str :=
  match lines with
  | [] => []
  | [l] => l
  | l :: rest => l ++ NEWLINE :: join_newline rest
  end.

End PyStr.

Import PyStr.

(* ================================================================== *)
(** ** wrap_prints.py *)
(* ================================================================== *)

Module WrapPrints.

(** The string constants of the script. *)
Definition PRINT : str := lit "print(".
Definition COMMENT : str := lit "//".
Definition IF_DEBUG : str := lit "#if DEBUG".
Definition ENDIF : str := lit "#endif".

(** [PRODUCTION_PATTERNS]; the third one starts with U+274C. *)
Definition PRODUCTION_PATTERNS : list str :=
  [ lit "CRITICAL";
    lit "FATAL";
    10060%N :: lit " ERROR";
    lit "App will not function" ].

(** The loop of [should_keep_in_production] over a pattern list. *)
Fixpoint keep_loop (patterns : list str) (line : str) : bool :=
  match patterns with
  | [] => false
  | pattern :: patterns' =>
      if contains pattern line then true else keep_loop patterns' line
  end.

Definition should_keep_in_production (line : str) : bool :=
  keep_loop PRODUCTION_PATTERNS line.

(** The inner loop of [is_already_wrapped]:
    [for j in range(...): if '#endif' in lines[j]: return True].
    [None] is the [IndexError] of [lines[j]]. *)
Fixpoint endif_loop (lines : list str) (js : list nat) : option bool :=
  match js with
  | [] => Some false
  | j :: js' =>
      match nth_error lines j with
      | None => None
      | Some l => if contains ENDIF l then Some true else endif_loop lines js'
      end
  end.

(** The outer loop of [is_already_wrapped]: for every [i] whose line has
    [#if DEBUG] the inner loop runs; it returns from the function when it
    finds [#endif], otherwise the outer loop goes on. *)
Fixpoint if_debug_loop (lines : list str) (ks js : list nat) : option bool :=
  match ks with
  | [] => Some false
  | i :: ks' =>
      match nth_error lines i with
      | None => None
      | Some l =>
          if contains IF_DEBUG l then
            match endif_loop lines js with
            | None => None
            | Some true => Some true
            | Some false => if_debug_loop lines ks' js
            end
          else if_debug_loop lines ks' js
      end
  end.

(** [is_already_wrapped(lines, index)].  On naturals [index - 5] already
    stops at 0, as [max(0, index - 5)] does. *)
Definition is_already_wrapped (lines : list str) (index : nat) : option bool :=
  if_debug_loop lines
    (range (Nat.max 0 (index - 5)) index)
    (range (index + 1) (Nat.min (length lines) (index + 5))).

(** [len(line) - len(line.lstrip())] *)
Definition indent_of (line : str) : nat :=
  length line - length (lstrip line).

(** The two lines [process_file] inserts around [line]. *)
Definition open_guard (line : str) : str :=
  spaces (indent_of line) ++ lit "#if DEBUG" ++ [NEWLINE].

Definition close_guard (line : str) : str :=
  spaces (indent_of line) ++ lit "#endif" ++ [NEWLINE].

(** The test [ 'print(' in line and not line.strip().startswith('//') ]. *)
Definition is_print_statement (line : str) : bool :=
  contains PRINT line && negb (startswith (strip line) COMMENT).

(** The [while i < len(lines)] loop of [process_file], with its three
    loop variables.  Every branch ends in [i += 1], so [len(lines)]
    iterations are enough; [None] is an [IndexError] or a lack of fuel
    ([process_lines_total] shows that neither happens). *)
Fixpoint while_loop (fuel : nat) (lines : list str) (i : nat)
    (new_lines : list str) (modified : bool) : option (list str * bool) :=
  if i <? length lines then
    match fuel with
    | 0 => None
    | S fuel' =>
        match nth_error lines i with
        | None => None
        | Some line =>
            if is_print_statement line then
              match is_already_wrapped lines i with
              | None => None
              | Some wrapped =>
                  if wrapped || should_keep_in_production line then
                    while_loop fuel' lines (i + 1) (new_lines ++ [line]) modified
                  else
                    while_loop fuel' lines (i + 1)
                      (new_lines ++ [open_guard line; line; close_guard line])
                      true
              end
            else
              while_loop fuel' lines (i + 1) (new_lines ++ [line]) modified
        end
    end
  else Some (new_lines, modified).

(** The body of [process_file] between the read and the write:
    [(new_lines, modified)]. *)
Definition process_lines (lines : list str) : option (list str * bool) :=
  while_loop (length lines) lines 0 [] false.

(** The lines of the file once [process_file] is done with it: the file
    is rewritten with [new_lines] when [modified] is set and is left as it
    was otherwise. *)
Definition transform (lines : list str) : list str :=
  match process_lines lines with
  | Some (new_lines, true) => new_lines
  | _ => lines
  end.

(** *** The loop seen one iteration at a time *)

(** What iteration [i] of the loop appends to [new_lines]. *)
Definition emitted (lines : list str) (i : nat) : list str :=
  match nth_error lines i with
  | None => []
  | Some line =>
      if is_print_statement line then
        match is_already_wrapped lines i with
        | None => []
        | Some wrapped =>
            if wrapped || should_keep_in_production line
            then [line]
            else [open_guard line; line; close_guard line]
        end
      else [line]
  end.

(** The two windows of [is_already_wrapped], seen from the line: [before]
    holds the lines above it, nearest first, [after] the lines below it. *)
Definition wrapped_between (before after : list str) : bool :=
  existsb (contains IF_DEBUG) (firstn 5 before) &&
  existsb (contains ENDIF) (firstn 4 after).

(** The line gets a guard pair. *)
Definition needs_guard (before : list str) (line : str) (after : list str)
  : bool :=
  is_print_statement line &&
  negb (wrapped_between before after || should_keep_in_production line).

Definition block (before : list str) (line : str) (after : list str)
  : list str :=
  if needs_guard before line after
  then [open_guard line; line; close_guard line]
  else [line].

(** The output for the lines [rest], [before] being the lines above them,
    nearest first. *)
Fixpoint blocks (before rest : list str) : list str :=
  match rest with
  | [] => []
  | line :: after => block before line after ++ blocks (line :: before) after
  end.

(** The output with every line marked: [true] for a line the loop made
    up, [false] for a line it took from the input. *)
Definition marked_block (before : list str) (line : str) (after : list str)
  : list (bool * str) :=
  if needs_guard before line after
  then [(true, open_guard line); (false, line); (true, close_guard line)]
  else [(false, line)].

Fixpoint marked_blocks (before rest : list str) : list (bool * str) :=
  match rest with
  | [] => []
  | line :: after =>
      marked_block before line after ++ marked_blocks (line :: before) after
  end.

Definition marked_transform (lines : list str) : list (bool * str) :=
  marked_blocks [] lines.

(** The output for the lines [pre] when the lines [post] follow them. *)
Fixpoint blocks_init (before pre post : list str) : list str :=
  match pre with
  | [] => []
  | line :: pre' =>
      block before line (pre' ++ post) ++ blocks_init (line :: before) pre' post
  end.

(** Some line of [rest] gets a guard pair: the final [modified]. *)
Fixpoint any_guard (before rest : list str) : bool :=
  match rest with
  | [] => false
  | line :: after =>
      needs_guard before line after || any_guard (line :: before) after
  end.

End WrapPrints.

(* ================================================================== *)
(** ** wrap_debug_prints.py *)
(* ================================================================== *)

Module WrapDebugPrints.

Definition PRINT : str := lit "print(".
Definition COMMENT : str := lit "//".
Definition IF_DEBUG : str := lit "#if DEBUG".

Definition indent_of (line : str) : nat :=
  length line - length (lstrip line).

(** The two lines [process_swift_file] inserts; the lines come from
    [split] and carry no newline. *)
Definition open_guard (line : str) : str :=
  spaces (indent_of line) ++ lit "#if DEBUG".

Definition close_guard (line : str) : str :=
  spaces (indent_of line) ++ lit "#endif".

Definition is_print_statement (line : str) : bool :=
  contains PRINT line && negb (startswith (strip line) COMMENT).

(** [i > 0 and '#if DEBUG' in lines[i-1]]; [None] is the [IndexError]
    of [lines[i-1]]. *)
Definition already_wrapped (lines : list str) (i : nat) : option bool :=
  if 0 <? i then
    match nth_error lines (i - 1) with
    | None => None
    | Some prev => Some (contains IF_DEBUG prev)
    end
  else Some false.

(** The [while i < len(lines)] loop of [process_swift_file]. *)
Fixpoint while_loop (fuel : nat) (lines : list str) (i : nat)
    (new_lines : list str) : option (list str) :=
  if i <? length lines then
    match fuel with
    | 0 => None
    | S fuel' =>
        match nth_error lines i with
        | None => None
        | Some line =>
            if is_print_statement line then
              match already_wrapped lines i with
              | None => None
              | Some true =>
                  while_loop fuel' lines (i + 1) (new_lines ++ [line])
              | Some false =>
                  while_loop fuel' lines (i + 1)
                    (new_lines ++ [open_guard line; line; close_guard line])
              end
            else
              while_loop fuel' lines (i + 1) (new_lines ++ [line])
        end
    end
  else Some new_lines.

Definition process_lines (lines : list str) : option (list str) :=
  while_loop (length lines) lines 0 [].

(** The lines of the file once [process_swift_file] is done with it. *)
Definition transform (lines : list str) : list str :=
  match process_lines lines with
  | Some new_lines => new_lines
  | None => lines
  end.

(** [new_content] as a function of [content]. *)
Definition new_content (content : str) : option str :=
  match process_lines (split_newline content) with
  | Some new_lines => Some (join_newline new_lines)
  | None => None
  end.

(** *** The loop seen one iteration at a time *)

(** The line gets a guard pair; [before] holds the lines above it,
    nearest first. *)
Definition needs_guard (before : list str) (line : str) : bool :=
  is_print_statement line &&
  negb (match before with
        | [] => false
        | prev :: _ => contains IF_DEBUG prev
        end).

Definition block (before : list str) (line : str) : list str :=
  if needs_guard before line
  then [open_guard line; line; close_guard line]
  else [line].

Fixpoint blocks (before rest : list str) : list str :=
  match rest with
  | [] => []
  | line :: after => block before line ++ blocks (line :: before) after
  end.

End WrapDebugPrints.

(* ================================================================== *)
(** ** Files, console and exceptions *)
(* ================================================================== *)

Module Sys.

Definition path := str.

(** The exceptions the file operations of the scripts can raise; all of
    them are caught by [except Exception]. *)
Inductive exn :=
| FileNotFoundError
| PermissionError
| UnicodeDecodeError
| OSError
| IndexError.

(** A file: its decoded text, and the exception that reading it or
    writing it raises, if any. *)
Record file := File {
  text : str;
  read_exn : option exn;
  write_exn : option exn
}.

(** What the scripts print, one constructor per [print] call. *)
Inductive message :=
| Not_found                           (* wrap_prints: directory not found *)
| Processing (n : nat)                (* Processing {n} Swift files... *)
| Modified_rel (p : path)             (* check mark, relative path *)
| Error_processing (p : path) (e : exn)  (* Error processing {p}: {e} *)
| Modified_count (n : nat)            (* Modified {n} files *)
| Wrapped_estimate (n : nat)          (* Wrapped ~{n} print statements ... *)
| Dir_not_found                       (* wrap_debug_prints: Directory not found *)
| Found (n : nat)                     (* Found {n} Swift files *)
| Wrapping                            (* Wrapping print statements ... *)
| Modified_path (p : path)            (* Modified: {p} *)
| Complete (n : nat).                 (* Complete! Modified {n} files *)

(** What a run does to the outside, in order. *)
Inductive event :=
| Ev_exists
| Ev_rglob
| Ev_read (p : path)
| Ev_write (p : path) (content : str)
| Ev_print (m : message).

(** The outside: [root] is [None] when [focusmate/Focusmate] does not
    exist and otherwise holds what [rglob('*.swift')] lists; [files] is
    the file system; [trace] records the events so far. *)
Record world := World {
  root : option (list path);
  files : list (path * file);
  trace : list event
}.

Fixpoint str_eqb (a b : str) : bool :=
  match a, b with
  | [], [] => true
  | x :: a', y :: b' => N.eqb x y && str_eqb a' b'
  | _, _ => false
  end.

Fixpoint lookup (p : path) (fs : list (path * file)) : option file :=
  match fs with
  | [] => None
  | (q, f) :: fs' => if str_eqb p q then Some f else lookup p fs'
  end.

Fixpoint update (p : path) (content : str) (fs : list (path * file))
  : list (path * file) :=
  match fs with
  | [] => []
  | (q, f) :: fs' =>
      if str_eqb p q
      then (q, File content (read_exn f) (write_exn f)) :: fs'
      else (q, f) :: update p content fs'
  end.

(** Computations that read and change the world and may raise. *)
Definition io (A : Type) : Type := world -> (exn + A) * world.

Definition ret (A : Type) (a : A) : io A := fun w => (inr a, w).

Definition bind (A B : Type) (m : io A) (k : A -> io B) : io B :=
  fun w =>
    match m w with
    | (inl e, w') => (inl e, w')
    | (inr a, w') => k a w'
    end.

Definition raise {A : Type} (e : exn) : io A := fun w => (inl e, w).

(** [try: body  except Exception as e: handler(e)] *)
Definition try_except (A : Type) (body : io A) (handler : exn -> io A) : io A :=
  fun w =>
    match body w with
    | (inl e, w') => handler e w'
    | (inr a, w') => (inr a, w')
    end.

Definition log (ev : event) : io unit :=
  fun w => (inr tt, World (root w) (files w) (trace w ++ [ev])).

Definition print (m : message) : io unit := log (Ev_print m).

(** [focusmate_dir.exists()] *)
Definition dir_exists : io bool :=
  fun w =>
    (inr (match root w with Some _ => true | None => false end),
     World (root w) (files w) (trace w ++ [Ev_exists])).

(** [list(focusmate_dir.rglob('*.swift'))] *)
Definition rglob : io (list path) :=
  fun w =>
    (inr (match root w with Some ps => ps | None => [] end),
     World (root w) (files w) (trace w ++ [Ev_rglob])).

(** [open(p, 'r')] and reading the whole text. *)
Definition read_text (p : path) : io str :=
  fun w =>
    let w' := World (root w) (files w) (trace w ++ [Ev_read p]) in
    match lookup p (files w) with
    | None => (inl FileNotFoundError, w')
    | Some f =>
        match read_exn f with
        | Some e => (inl e, w')
        | None => (inr (text f), w')
        end
    end.

(** [open(p, 'w')] and writing the whole text. *)
Definition write_text (p : path) (content : str) : io unit :=
  fun w =>
    match lookup p (files w) with
    | None => (inl FileNotFoundError, w)
    | Some f =>
        match write_exn f with
        | Some e => (inl e, w)
        | None =>
            (inr tt,
             World (root w) (update p content (files w))
                   (trace w ++ [Ev_write p content]))
        end
    end.

End Sys.

Import Sys.

Declare Scope io_scope.
Delimit Scope io_scope with io.
Notation "x <- m ;; k" := (bind m (fun x => k))
  (at level 61, m at next level, right associativity) : io_scope.
Notation "m ;; k" := (bind m (fun _ => k))
  (at level 61, right associativity) : io_scope.

(* ================================================================== *)
(** ** The two command lines *)
(* ================================================================== *)

Module WrapPrintsMain.

Local Open Scope io_scope.

(** [process_file(filepath)] *)
Definition process_file (filepath : path) : io bool :=
  content <- read_text filepath ;;
  match WrapPrints.process_lines (readlines content) with
  | None => raise IndexError
  | Some (new_lines, modified) =>
      if modified then
        write_text filepath (writelines new_lines) ;;
        ret true
      else ret false
  end.

(** The [for filepath in swift_files] loop of [main], with its
    [try]/[except Exception]. *)
Fixpoint for_files (swift_files : list path) (modified_files : list path)
  : io (list path) :=
  match swift_files with
  | [] => ret modified_files
  | filepath :: rest =>
      modified_files' <-
        try_except
          (changed <- process_file filepath ;;
           if changed then
             print (Modified_rel filepath) ;;
             ret (modified_files ++ [filepath])
           else ret modified_files)
          (fun e =>
             print (Error_processing filepath e) ;;
             ret modified_files) ;;
      for_files rest modified_files'
  end.

(** [main()] *)
Definition main : io unit :=
  present <- dir_exists ;;
  if negb present then
    print Not_found
  else
    swift_files <- rglob ;;
    print (Processing (length swift_files)) ;;
    modified_files <- for_files swift_files [] ;;
    print (Modified_count (length modified_files)) ;;
    print (Wrapped_estimate (length modified_files * 3)).

End WrapPrintsMain.

Module WrapDebugPrintsMain.

Local Open Scope io_scope.

(** [process_swift_file(filepath)] *)
Definition process_swift_file (filepath : path) : io bool :=
  content <- read_text filepath ;;
  match WrapDebugPrints.new_content content with
  | None => raise IndexError
  | Some new_content =>
      if negb (str_eqb new_content content) then
        write_text filepath new_content ;;
        ret true
      else ret false
  end.

(** The [for filepath in swift_files] loop of [main]; nothing is caught. *)
Fixpoint for_files (swift_files : list path) (modified_count : nat)
  : io nat :=
  match swift_files with
  | [] => ret modified_count
  | filepath :: rest =>
      changed <- process_swift_file filepath ;;
      if changed then
        print (Modified_path filepath) ;;
        for_files rest (modified_count + 1)
      else for_files rest modified_count
  end.

(** [main()] *)
Definition main : io unit :=
  present <- dir_exists ;;
  if negb present then
    print Dir_not_found
  else
    swift_files <- rglob ;;
    print (Found (length swift_files)) ;;
    print Wrapping ;;
    modified_count <- for_files swift_files 0 ;;
    print (Complete modified_count).

End WrapDebugPrintsMain.

(* ================================================================== *)
(** ** Notions of the specification *)
(* ================================================================== *)

Module Spec.

Import WrapPrints.

(** The leading whitespace of a line, character for character. *)
Definition leading_ws (line : str) : str :=
  firstn (length line - length (lstrip line)) line.

(** Scanning away from a diagnostic line for a marker, as the
    specification words it: the marker counts only when no other
    diagnostic line lies between it and the line. *)
Fixpoint scan_for (marker : str) (window : list str) : bool :=
  match window with
  | [] => false
  | l :: window' =>
      if contains marker l then true
      else if is_print_statement l then false
      else scan_for marker window'
  end.

(** Follows the specification: an open-guard within [5] lines above and a
    close-guard within [5] lines below, no diagnostic line in between. *)
Definition spec_wrapped (lines : list str) (i : nat) : bool :=
  scan_for IF_DEBUG (firstn 5 (rev (firstn i lines))) &&
  scan_for ENDIF (firstn 5 (skipn (S i) lines)).

(** Guard blocks: a line with [#if DEBUG] opens one, a line with [#endif]
    closes the innermost open one. *)
Definition enter (depth : nat) (l : str) : nat :=
  if contains IF_DEBUG l then S depth
  else if contains ENDIF l then Nat.pred depth
  else depth.

(** Read upwards, the roles of the two markers are exchanged. *)
Definition leave (depth : nat) (l : str) : nat :=
  if contains ENDIF l then S depth
  else if contains IF_DEBUG l then Nat.pred depth
  else depth.

(** The guards opened above line [p] and still open there. *)
Definition open_above (lines : list str) (p : nat) : nat :=
  fold_left enter (firstn p lines) 0.

(** The closing markers below line [p] that close a block begun at or
    above [p]. *)
Definition closed_below (lines : list str) (p : nat) : nat :=
  fold_left leave (rev (skipn (S p) lines)) 0.

(** The number of guard pairs that enclose line [p]. *)
Definition enclosing_pairs (lines : list str) (p : nat) : nat :=
  Nat.min (open_above lines p) (closed_below lines p).

(** [lines[i]] holds [marker]. *)
Definition marker_at (marker : str) (lines : list str) (i : nat) : bool :=
  match nth_error lines i with
  | None => false
  | Some l => contains marker l
  end.

(** Line [i] is not a diagnostic that [is_already_wrapped] accepts on
    the strength of distant markers: when it is a non-exempt diagnostic
    found wrapped, the lines right above and right below it hold the
    markers. *)
Definition tight_at (lines : list str) (i : nat) : bool :=
  match nth_error lines i, is_already_wrapped lines i with
  | Some l, Some true =>
      if is_print_statement l && negb (should_keep_in_production l)
      then (0 <? i) && marker_at IF_DEBUG lines (i - 1)
           && marker_at ENDIF lines (i + 1)
      else true
  | _, _ => true
  end.

Definition tightly_wrapped (lines : list str) : bool :=
  forallb (tight_at lines) (seq 0 (length lines)).

(** [tightly_wrapped], read along the file: [before] holds the lines
    above, nearest first, [rest] the lines still to come. *)
Definition first_has (marker : str) (ls : list str) : bool :=
  match ls with
  | [] => false
  | l :: _ => contains marker l
  end.

Fixpoint tight_from (before rest : list str) : bool :=
  match rest with
  | [] => true
  | l :: after =>
      (if wrapped_between before after
       then if is_print_statement l && negb (should_keep_in_production l)
            then first_has IF_DEBUG before && first_has ENDIF after
            else true
       else true)
      && tight_from (l :: before) after
  end.

(** [guarded_copy xs ys]: [ys] is [xs] where some lines stand between an
    opening line and a closing line of their own. *)
Inductive guarded_copy : list str -> list str -> Prop :=
| gc_nil : guarded_copy [] []
| gc_keep : forall x xs ys,
    guarded_copy xs ys -> guarded_copy (x :: xs) (x :: ys)
| gc_wrap : forall o c x xs ys,
    contains IF_DEBUG o = true ->
    contains IF_DEBUG c = false ->
    contains ENDIF c = true ->
    guarded_copy xs ys -> guarded_copy (x :: xs) (o :: x :: c :: ys).

(** No line holds the open-guard marker. *)
Definition no_open_guard (lines : list str) : bool :=
  forallb (fun l => negb (contains IF_DEBUG l)) lines.

(** A guard-marker line as [process_file] writes it: spaces, the marker
    and a newline. *)
Definition guard_line (g : str) : Prop :=
  exists n, g = spaces n ++ lit "#if DEBUG" ++ [NEWLINE]
         \/ g = spaces n ++ lit "#endif" ++ [NEWLINE].

(** [inserts_only xs ys]: [ys] is [xs] with guard-marker lines put in;
    every line of [xs] is in [ys], untouched and in the same order. *)
Inductive inserts_only : list str -> list str -> Prop :=
| ins_nil : inserts_only [] []
| ins_keep : forall x xs ys,
    inserts_only xs ys -> inserts_only (x :: xs) (x :: ys)
| ins_guard : forall g xs ys,
    guard_line g -> inserts_only xs ys -> inserts_only xs (g :: ys).

End Spec.

(* ================================================================== *)
(** ** What a run reports *)
(* ================================================================== *)

Module Report.

(** The messages of a trace, in order. *)
Fixpoint printed (tr : list event) : list message :=
  match tr with
  | [] => []
  | Ev_print m :: tr' => m :: printed tr'
  | _ :: tr' => printed tr'
  end.

(** The paths opened for reading, in order. *)
Fixpoint reads (tr : list event) : list path :=
  match tr with
  | [] => []
  | Ev_read p :: tr' => p :: reads tr'
  | _ :: tr' => reads tr'
  end.

(** The final summary of [wrap_prints.py]: its last two messages. *)
Definition is_summary (m : message) : bool :=
  match m with
  | Modified_count _ | Wrapped_estimate _ => true
  | _ => false
  end.

Definition summary (tr : list event) : list message :=
  filter is_summary (printed tr).

Definition is_error (m : message) : bool :=
  match m with Error_processing _ _ => true | _ => false end.

Definition is_modified (m : message) : bool :=
  match m with Modified_rel _ => true | _ => false end.

(** The files of a run by outcome: failed, modified, and the rest. *)
Definition failed_count (tr : list event) : nat :=
  length (filter is_error (printed tr)).

Definition modified_count (tr : list event) : nat :=
  length (filter is_modified (printed tr)).

Definition unmodified_count (tr : list event) : nat :=
  length (reads tr) - failed_count tr - modified_count tr.

(** Reading [p] raises [e]. *)
Definition read_raises (fs : list (path * file)) (p : path) : option exn :=
  match lookup p fs with
  | None => Some FileNotFoundError
  | Some f => read_exn f
  end.

End Report.

(* ================================================================== *)
(** ** Sample inputs *)
(* ================================================================== *)

Module Samples.

(** A line of text with its newline. *)
Definition ln (s : string) : str := lit s ++ [NEWLINE].

(** [    print("hello")], without a newline. *)
Definition hello : str :=
  lit "    print(" ++ [QUOTE] ++ lit "hello" ++ [QUOTE] ++ lit ")".

(** A diagnostic indented with one tab. *)
Definition tab_print : str := TAB :: lit "print(x)".

(** [print("CRITICAL: ...")], an exempt diagnostic. *)
Definition critical : str :=
  lit "    print(" ++ [QUOTE] ++ lit "CRITICAL: no database" ++ [QUOTE]
  ++ lit ")" ++ [NEWLINE].

(** A debug block with two diagnostics, three statements apart. *)
Definition debug_block : list str :=
  [ ln "#if DEBUG";
    ln "print(a)";
    ln "let x = 1";
    ln "let y = 2";
    ln "let z = 3";
    ln "print(b)";
    ln "#endif" ].

(** A debug block with two diagnostics one after the other. *)
Definition debug_pair : list str :=
  [ ln "#if DEBUG";
    ln "print(a)";
    ln "print(b)";
    ln "#endif" ].

(** A debug block whose only diagnostic is its first statement, the
    closing marker five lines below it. *)
Definition long_block : list str :=
  [ ln "#if DEBUG";
    ln "print(a)";
    ln "let x = 1";
    ln "let y = 2";
    ln "let z = 3";
    ln "let t = 4";
    ln "#endif" ].

(** A debug block whose diagnostic is its second statement. *)
Definition spaced_block : list str :=
  [ ln "#if DEBUG";
    ln "let x = 1";
    ln "print(a)";
    ln "#endif" ].

(** Two diagnostics around a plain line, and an exempt one. *)
Definition mixed : list str :=
  [ ln "print(a)"; ln "let x = 1"; ln "print(b)"; critical ].

End Samples.

Module SampleWorlds.

Import Samples.

Definition a_swift : path := lit "focusmate/Focusmate/A.swift".
Definition b_swift : path := lit "focusmate/Focusmate/B.swift".
Definition c_swift : path := lit "focusmate/Focusmate/C.swift".

(** A file with one diagnostic to wrap. *)
Definition to_wrap : file :=
  File (ln "let x = 1" ++ ln "print(x)") None None.

(** A file with nothing to wrap. *)
Definition plain : file := File (ln "let x = 1") None None.

(** A file that cannot be read. *)
Definition unreadable : file :=
  File (ln "print(x)") (Some PermissionError) None.

(** A file that can be read and not written. *)
Definition read_only : file :=
  File (ln "print(x)") None (Some PermissionError).

(** No [focusmate/Focusmate] directory. *)
Definition no_root : world :=
  World None [(a_swift, to_wrap)] [].

(** One file, which cannot be read. *)
Definition one_failing : world :=
  World (Some [a_swift]) [(a_swift, unreadable)] [].

(** One file, which needs no change. *)
Definition one_plain : world :=
  World (Some [a_swift]) [(a_swift, plain)] [].

(** Three files: unreadable, to wrap, read-only. *)
Definition three_files : world :=
  World (Some [a_swift; b_swift; c_swift])
        [(a_swift, unreadable); (b_swift, to_wrap); (c_swift, read_only)]
        [].

End SampleWorlds.

(* ================================================================== *)
(** ** Further notions for wrap_prints.py *)
(* ================================================================== *)

Module Linewise.

Import WrapPrints.

(** The line is a diagnostic without an exemption pattern. *)
Definition wrappable (l : str) : bool :=
  is_print_statement l && negb (should_keep_in_production l).

(** What the loop appends for a line that is not found wrapped. *)
Definition wrap_line (l : str) : list str :=
  if wrappable l then [open_guard l; l; close_guard l] else [l].

(** No line holds the close-guard marker. *)
Definition no_close_guard (lines : list str) : bool :=
  forallb (fun l => negb (contains ENDIF l)) lines.

(** The number of diagnostics without an exemption pattern. *)
Definition wrappable_count (lines : list str) : nat :=
  length (filter wrappable lines).

(** [wrapped_copy xs ys]: [ys] is [xs] where some of the diagnostics
    without an exemption pattern stand between the two guard lines the
    loop makes for them. *)
Inductive wrapped_copy : list str -> list str -> Prop :=
| wc_nil : wrapped_copy [] []
| wc_keep : forall x xs ys,
    wrapped_copy xs ys -> wrapped_copy (x :: xs) (x :: ys)
| wc_wrap : forall x xs ys,
    wrappable x = true ->
    wrapped_copy xs ys ->
    wrapped_copy (x :: xs) (open_guard x :: x :: close_guard x :: ys).

End Linewise.

(* ================================================================== *)
(** ** Further notions for the command lines *)
(* ================================================================== *)

Module Effects.

(** The paths written during a trace, in order. *)
Fixpoint written (tr : list event) : list path :=
  match tr with
  | [] => []
  | Ev_write p _ :: tr' => p :: written tr'
  | _ :: tr' => written tr'
  end.

(** The paths reported modified by [wrap_prints.py], in order. *)
Fixpoint reported_modified (ms : list message) : list path :=
  match ms with
  | [] => []
  | Modified_rel p :: ms' => p :: reported_modified ms'
  | _ :: ms' => reported_modified ms'
  end.

(** The paths reported modified by [wrap_debug_prints.py], in order. *)
Fixpoint reported_modified_swift (ms : list message) : list path :=
  match ms with
  | [] => []
  | Modified_path p :: ms' => p :: reported_modified_swift ms'
  | _ :: ms' => reported_modified_swift ms'
  end.

(** What [rglob] lists in a world. *)
Definition listed (w : world) : list path :=
  match root w with Some ps => ps | None => [] end.

(** [q] is none of the paths [ps]. *)
Definition not_among (q : path) (ps : list path) : bool :=
  forallb (fun p => negb (str_eqb q p)) ps.

(** Two files with a diagnostic to wrap; only the first is listed. *)
Definition one_listed : world :=
  World (Some [SampleWorlds.a_swift])
        [(SampleWorlds.a_swift, SampleWorlds.to_wrap);
         (SampleWorlds.b_swift, SampleWorlds.to_wrap)]
        [].

End Effects.

(* ================================================================== *)
(** ** Further notions for wrap_debug_prints.py *)
(* ================================================================== *)

Module SwiftViews.

Import WrapDebugPrints.

(** Some line of [rest] gets a guard pair. *)
Fixpoint any_guard (before rest : list str) : bool :=
  match rest with
  | [] => false
  | line :: after => needs_guard before line || any_guard (line :: before) after
  end.

(** Some diagnostic line itself holds [#if DEBUG]. *)
Definition print_mentions_guard (lines : list str) : bool :=
  existsb (fun l => is_print_statement l && contains IF_DEBUG l) lines.

(** A guard-marker line as [process_swift_file] writes it: spaces and
    the marker. *)
Definition guard_line (g : str) : Prop :=
  exists n, g = spaces n ++ lit "#if DEBUG" \/ g = spaces n ++ lit "#endif".

(** [inserts_only xs ys]: [ys] is [xs] with such guard lines put in. *)
Inductive inserts_only : list str -> list str -> Prop :=
| ins_nil : inserts_only [] []
| ins_keep : forall x xs ys,
    inserts_only xs ys -> inserts_only (x :: xs) (x :: ys)
| ins_guard : forall g xs ys,
    guard_line g -> inserts_only xs ys -> inserts_only xs (g :: ys).

(** A line without a newline character. *)
Definition one_line (l : str) : bool :=
  negb (existsb (fun c => N.eqb c NEWLINE) l).

(** The characters of the joined text, one more for each line. *)
Fixpoint weight (ls : list str) : nat :=
  match ls with
  | [] => 0
  | l :: ls' => S (length l) + weight ls'
  end.

(** The line right above, if there is one, holds [#if DEBUG]. *)
Definition below_if_debug (before : list str) : bool :=
  match before with
  | [] => false
  | prev :: _ => contains IF_DEBUG prev
  end.

End SwiftViews.

(* ================================================================== *)
(** ** Runs seen from the text of the file *)
(* ================================================================== *)

Module FileText.

(** The text is empty or its last character is a newline. *)
Definition ends_with_newline (text : str) : bool :=
  match rev text with
  | [] => true
  | c :: _ => N.eqb c NEWLINE
  end.

(** The line is some characters other than newline and then a newline. *)
Definition terminated (l : str) : bool :=
  match rev l with
  | [] => false
  | c :: s => N.eqb c NEWLINE && negb (existsb (fun c => N.eqb c NEWLINE) s)
  end.

(** The text [process_file] computes for a file that holds [text];
    it is what the file holds afterwards. *)
Definition after_process_file (text : str) : str :=
  writelines (WrapPrints.transform (readlines text)).

(** The text [process_swift_file] computes for a file that holds
    [content]; it is what the file holds afterwards. *)
Definition after_process_swift_file (content : str) : str :=
  join_newline (WrapDebugPrints.transform (split_newline content)).

End FileText.

(* ================================================================== *)
(** ** Further notions for the two scripts together *)
(* ================================================================== *)

Module Together.

(** No line is a diagnostic with an exemption pattern. *)
Definition no_exempt_diagnostic (lines : list str) : bool :=
  forallb (fun l => negb (WrapPrints.is_print_statement l
                          && WrapPrints.should_keep_in_production l))
          lines.

(** The number of diagnostic lines. *)
Definition print_count (lines : list str) : nat :=
  length (filter WrapDebugPrints.is_print_statement lines).

(** [swift_wrapped_copy xs ys]: [ys] is [xs] where some of the
    diagnostics stand between the two guard lines [process_swift_file]
    makes for them. *)
Inductive swift_wrapped_copy : list str -> list str -> Prop :=
| swc_nil : swift_wrapped_copy [] []
| swc_keep : forall x xs ys,
    swift_wrapped_copy xs ys -> swift_wrapped_copy (x :: xs) (x :: ys)
| swc_wrap : forall x xs ys,
    WrapDebugPrints.is_print_statement x = true ->
    swift_wrapped_copy xs ys ->
    swift_wrapped_copy (x :: xs)
      (WrapDebugPrints.open_guard x :: x :: WrapDebugPrints.close_guard x :: ys).

End Together.

(* ================================================================== *)
(** * Properties *)
(* ================================================================== *)

(** ** Strings *)

Section StringFacts.

Lemma contains_cons (needle : str) (c : char) (hay : str) :
  contains needle (c :: hay)
  = startswith (c :: hay) needle || contains needle hay.
Proof. destruct needle; reflexivity. Qed.

Lemma contains_app_skip (needle pre hay : str) :
  contains needle hay = true -> contains needle (pre ++ hay) = true.
Proof.
  intros H. induction pre as [|c pre IH]; [exact H|].
  change ((c :: pre) ++ hay) with (c :: (pre ++ hay)).
  rewrite contains_cons, IH. apply orb_true_r.
Qed.

(** A needle that cannot start at a space is found behind leading spaces
    exactly when it is found without them. *)
Lemma contains_spaces (needle : str) (k : nat) (s : str) :
  (forall t, startswith (SPACE :: t) needle = false) ->
  contains needle (spaces k ++ s) = contains needle s.
Proof.
  intros Hsp. induction k as [|k IH]; [reflexivity|].
  change (spaces (S k) ++ s) with (SPACE :: (spaces k ++ s)).
  rewrite contains_cons, Hsp, IH. reflexivity.
Qed.

Lemma lstrip_spaces (k : nat) (s : str) :
  lstrip (spaces k ++ s) = lstrip s.
Proof. induction k as [|k IH]; [reflexivity|exact IH]. Qed.

Lemma spaces_length (k : nat) : length (spaces k) = k.
Proof. apply repeat_length. Qed.

Lemma existsb_rev (A : Type) (f : A -> bool) (l : list A) :
  existsb f (rev l) = existsb f l.
Proof.
  induction l as [|x l IH]; [reflexivity|].
  simpl. rewrite existsb_app, IH. simpl.
  rewrite orb_false_r. apply orb_comm.
Qed.

Lemma skipn_nth_error (A : Type) (l : list A) (s : nat) (x : A) :
  nth_error l s = Some x -> skipn s l = x :: skipn (S s) l.
Proof.
  revert s. induction l as [|y l IH]; intros [|s] H; try discriminate.
  - injection H as ->. reflexivity.
  - simpl in H. rewrite (skipn_cons s y l). now apply IH.
Qed.

Lemma nth_error_in_range (A : Type) (l : list A) (s : nat) :
  s < length l -> exists x, nth_error l s = Some x.
Proof.
  intros H. destruct (nth_error l s) as [x|] eqn:E; [now exists x|].
  apply nth_error_None in E. lia.
Qed.

End StringFacts.

(** ** wrap_prints.py: the loops as window tests *)

Section WrapPrintsLoops.

Import WrapPrints.

Lemma keep_loop_existsb (patterns : list str) (line : str) :
  keep_loop patterns line = existsb (fun p => contains p line) patterns.
Proof.
  induction patterns as [|p ps IH]; [reflexivity|].
  simpl. rewrite IH. now destruct (contains p line).
Qed.

Lemma endif_loop_seq (lines : list str) (n s : nat) :
  s + n <= length lines ->
  endif_loop lines (seq s n)
  = Some (existsb (contains ENDIF) (firstn n (skipn s lines))).
Proof.
  revert s. induction n as [|n IH]; intros s H; [reflexivity|].
  destruct (@nth_error_in_range _ lines s ltac:(lia)) as [x Hx].
  cbn [seq endif_loop]. rewrite Hx, (skipn_nth_error _ _ Hx).
  cbn [firstn existsb].
  destruct (contains ENDIF x); [reflexivity|].
  rewrite IH by lia. reflexivity.
Qed.

Lemma if_debug_loop_seq (lines : list str) (js : list nat) (r : bool)
    (n s : nat) :
  s + n <= length lines ->
  endif_loop lines js = Some r ->
  if_debug_loop lines (seq s n) js
  = Some (existsb (contains IF_DEBUG) (firstn n (skipn s lines)) && r).
Proof.
  intros H Hr. revert s H. induction n as [|n IH]; intros s H; [reflexivity|].
  destruct (@nth_error_in_range _ lines s ltac:(lia)) as [x Hx].
  cbn [seq if_debug_loop]. rewrite Hx, (skipn_nth_error _ _ Hx).
  cbn [firstn existsb].
  destruct (contains IF_DEBUG x).
  - rewrite Hr. destruct r; [reflexivity|].
    rewrite IH by lia. now rewrite andb_false_r.
  - rewrite IH by lia. reflexivity.
Qed.

(** [is_already_wrapped] never raises inside the loop of [process_file],
    and is the conjunction of two window tests: [#if DEBUG] somewhere in
    [lines[i-5:i]] and [#endif] somewhere in [lines[i+1:i+5]]. *)
Lemma is_already_wrapped_slices (lines : list str) (i : nat) :
  i < length lines ->
  is_already_wrapped lines i
  = Some (existsb (contains IF_DEBUG) (slice lines (i - 5) i) &&
          existsb (contains ENDIF)
            (slice lines (i + 1) (Nat.min (length lines) (i + 5)))).
Proof.
  intros H. unfold is_already_wrapped, range, slice.
  change (Nat.max 0 (i - 5)) with (i - 5).
  apply if_debug_loop_seq; [lia|].
  apply endif_loop_seq. lia.
Qed.

Lemma slice_before (b : list str) (rest : list str) :
  slice (rev b ++ rest) (length b - 5) (length b) = rev (firstn 5 b).
Proof.
  unfold slice.
  rewrite skipn_app, length_rev.
  replace (length b - 5 - length b) with 0 by lia.
  rewrite firstn_app, skipn_rev, length_rev, length_firstn.
  replace (length b - (length b - 5) -
           Nat.min (length b - (length b - 5)) (length b)) with 0 by lia.
  cbn [skipn firstn]. rewrite app_nil_r.
  rewrite <- length_rev at 1.
  assert (E : firstn (length b - (length b - 5)) b = firstn 5 b).
  { destruct (Nat.le_gt_cases 5 (length b)).
    - f_equal. lia.
    - rewrite !firstn_all2 by lia. reflexivity. }
  rewrite E, length_rev.
  rewrite firstn_all2; [reflexivity|].
  rewrite length_rev, length_firstn. lia.
Qed.

Lemma slice_after (b : list str) (l : str) (a : list str) :
  slice (rev b ++ l :: a) (length b + 1)
        (Nat.min (length (rev b ++ l :: a)) (length b + 5))
  = firstn 4 a.
Proof.
  unfold slice.
  rewrite skipn_app, length_rev, length_app, length_rev.
  rewrite (skipn_all2 (rev b)) by (rewrite length_rev; lia).
  replace (length b + 1 - length b) with 1 by lia.
  cbn [app skipn length].
  destruct (Nat.le_gt_cases 4 (length a)).
  - f_equal. lia.
  - rewrite !firstn_all2 by lia. reflexivity.
Qed.

Lemma is_already_wrapped_between (b : list str) (l : str) (a : list str) :
  is_already_wrapped (rev b ++ l :: a) (length b)
  = Some (wrapped_between b a).
Proof.
  rewrite is_already_wrapped_slices
    by (rewrite length_app, length_rev; simpl; lia).
  rewrite slice_before, slice_after, existsb_rev. reflexivity.
Qed.

Lemma while_loop_blocks (rest b : list str) :
  forall fuel acc m,
    length rest <= fuel ->
    while_loop fuel (rev b ++ rest) (length b) acc m
    = Some (acc ++ blocks b rest, m || any_guard b rest).
Proof.
  revert b. induction rest as [|l a IH]; intros b fuel acc m Hfuel.
  - assert (E : (length b <? length (rev b ++ [])) = false).
    { apply Nat.ltb_ge. rewrite app_nil_r, length_rev. lia. }
    destruct fuel; cbn [while_loop]; rewrite E;
      cbn [blocks any_guard]; now rewrite app_nil_r, orb_false_r.
  - destruct fuel as [|fuel]; [simpl in Hfuel; lia|].
    assert (E : (length b <? length (rev b ++ l :: a)) = true).
    { apply Nat.ltb_lt. rewrite length_app, length_rev. simpl. lia. }
    assert (N : nth_error (rev b ++ l :: a) (length b) = Some l).
    { rewrite nth_error_app2 by (rewrite length_rev; lia).
      rewrite length_rev, Nat.sub_diag. reflexivity. }
    assert (L : rev b ++ l :: a = rev (l :: b) ++ a).
    { simpl. now rewrite <- app_assoc. }
    cbn [while_loop]. rewrite E, N, is_already_wrapped_between.
    cbn [blocks any_guard]. unfold block, needs_guard.
    replace (length b + 1) with (length (l :: b)) by (simpl; lia).
    rewrite L.
    destruct (is_print_statement l); cbn [andb].
    + destruct (wrapped_between b a || should_keep_in_production l);
        cbn [negb]; rewrite IH by (simpl in Hfuel; lia);
        rewrite <- app_assoc; cbn [orb]; try reflexivity.
      now rewrite orb_true_r.
    + rewrite IH by (simpl in Hfuel; lia).
      rewrite <- app_assoc. reflexivity.
Qed.

(** [process_file] always comes to an end, without an [IndexError]. *)
Lemma process_lines_total (lines : list str) :
  process_lines lines = Some (blocks [] lines, any_guard [] lines).
Proof.
  unfold process_lines.
  exact (@while_loop_blocks lines [] (length lines) [] false (le_n _)).
Qed.

Lemma blocks_unchanged (rest b : list str) :
  any_guard b rest = false -> blocks b rest = rest.
Proof.
  revert b. induction rest as [|l a IH]; intros b H; [reflexivity|].
  cbn [any_guard] in H. apply orb_false_iff in H as [H1 H2].
  cbn [blocks]. unfold block. rewrite H1. simpl. f_equal. now apply IH.
Qed.

Lemma transform_blocks (lines : list str) :
  transform lines = blocks [] lines.
Proof.
  unfold transform. rewrite process_lines_total.
  destruct (any_guard [] lines) eqn:E; [reflexivity|].
  symmetry. now apply blocks_unchanged.
Qed.

End WrapPrintsLoops.

(** ** The inserted lines *)

(** A marker test on an inserted line: the leading spaces are skipped
    and the rest is computed. *)
Ltac marker_test :=
  rewrite ?contains_spaces by (intros ?; reflexivity); reflexivity.

Section GuardLines.

Import WrapPrints.

Lemma open_guard_not_print (l : str) : is_print_statement (open_guard l) = false.
Proof.
  unfold is_print_statement, open_guard. marker_test.
Qed.

Lemma close_guard_not_print (l : str) : is_print_statement (close_guard l) = false.
Proof.
  unfold is_print_statement, close_guard. marker_test.
Qed.

Lemma open_guard_if_debug (l : str) : contains IF_DEBUG (open_guard l) = true.
Proof.
  unfold open_guard. marker_test.
Qed.

Lemma open_guard_no_endif (l : str) : contains ENDIF (open_guard l) = false.
Proof.
  unfold open_guard. marker_test.
Qed.

Lemma close_guard_endif (l : str) : contains ENDIF (close_guard l) = true.
Proof.
  unfold close_guard. marker_test.
Qed.

Lemma close_guard_no_if_debug (l : str) :
  contains IF_DEBUG (close_guard l) = false.
Proof.
  unfold close_guard. marker_test.
Qed.

Lemma open_guard_is_guard_line (l : str) : Spec.guard_line (open_guard l).
Proof. exists (indent_of l). left. reflexivity. Qed.

Lemma close_guard_is_guard_line (l : str) : Spec.guard_line (close_guard l).
Proof. exists (indent_of l). right. reflexivity. Qed.

(** Iteration [length b] of the loop, the lines above being [b]. *)
Lemma emitted_block (b : list str) (l : str) (a : list str) :
  emitted (rev b ++ l :: a) (length b) = block b l a.
Proof.
  unfold emitted, block, needs_guard.
  rewrite nth_error_app2 by (rewrite length_rev; lia).
  rewrite length_rev, Nat.sub_diag. cbn [nth_error].
  rewrite is_already_wrapped_between.
  destruct (is_print_statement l); [|reflexivity].
  now destruct (wrapped_between b a || should_keep_in_production l).
Qed.

Lemma blocks_emitted (rest b : list str) :
  blocks b rest
  = concat (map (emitted (rev b ++ rest)) (seq (length b) (length rest))).
Proof.
  revert b. induction rest as [|l a IH]; intros b; [reflexivity|].
  cbn [blocks length seq map concat].
  rewrite emitted_block. f_equal.
  rewrite IH. cbn [rev length]. now rewrite <- app_assoc.
Qed.

(** The output is the concatenation of what the iterations append. *)
Lemma transform_emitted (lines : list str) :
  transform lines
  = concat (map (emitted lines) (seq 0 (length lines))).
Proof. rewrite transform_blocks. exact (blocks_emitted lines []). Qed.

(** An iteration appends the line alone or the line between its guards. *)
Lemma emitted_cases (lines : list str) (i : nat) (l : str) :
  nth_error lines i = Some l ->
  emitted lines i = [l] \/
  emitted lines i = [open_guard l; l; close_guard l].
Proof.
  intros H.
  assert (Hi : i < length lines) by (apply nth_error_Some; congruence).
  unfold emitted. rewrite H, is_already_wrapped_slices by exact Hi.
  destruct (is_print_statement l); [|now left].
  match goal with |- context [if ?c then _ else _] => destruct c end;
    [now left | now right].
Qed.

End GuardLines.

(** ** Scenario: a single diagnostic line *)

Section Scenarios.

Import WrapPrints Samples.

(** C7. The input made of the single line [    print("hello")] (four
    spaces of indentation, no guard nearby, no exemption pattern) is
    rewritten to exactly three lines: [#if DEBUG] behind four spaces, the
    line itself, [#endif] behind four spaces; [modified] is set.  It is
    so whether or not the line ends in a newline. *)
Theorem single_print_is_wrapped :
  is_print_statement hello = true /\
  should_keep_in_production hello = false /\
  indent_of hello = 4 /\
  process_lines [hello]
  = Some ([spaces 4 ++ lit "#if DEBUG" ++ [NEWLINE];
           hello;
           spaces 4 ++ lit "#endif" ++ [NEWLINE]], true) /\
  transform [hello]
  = [spaces 4 ++ lit "#if DEBUG" ++ [NEWLINE];
     hello;
     spaces 4 ++ lit "#endif" ++ [NEWLINE]] /\
  transform [hello ++ [NEWLINE]]
  = [spaces 4 ++ lit "#if DEBUG" ++ [NEWLINE];
     hello ++ [NEWLINE];
     spaces 4 ++ lit "#endif" ++ [NEWLINE]].
Proof. repeat split; vm_compute; reflexivity. Qed.

End Scenarios.

(** ** The last line of a file *)

Section LastLine.

Import WrapPrints.

Lemma readlines_from_line (s cur : str) :
  existsb (fun c => N.eqb c NEWLINE) s = false ->
  readlines_from cur (s ++ [NEWLINE]) = [rev cur ++ s ++ [NEWLINE]].
Proof.
  revert cur. induction s as [|c s IH]; intros cur H.
  - reflexivity.
  - cbn [existsb] in H. apply orb_false_iff in H as [Hc Hs].
    cbn [app readlines_from]. rewrite Hc, IH by exact Hs.
    cbn [rev]. now rewrite <- app_assoc.
Qed.

Lemma readlines_from_app (p rest cur : str) :
  readlines_from cur (p ++ NEWLINE :: rest)
  = readlines_from cur (p ++ [NEWLINE]) ++ readlines_from [] rest.
Proof.
  revert cur. induction p as [|c p IH]; intros cur.
  - reflexivity.
  - cbn [app readlines_from]. destruct (N.eqb c NEWLINE).
    + rewrite IH. reflexivity.
    + apply IH.
Qed.

Lemma spaces_no_newline (k : nat) :
  existsb (fun c => N.eqb c NEWLINE) (spaces k) = false.
Proof. induction k as [|k IH]; [reflexivity|exact IH]. Qed.

Lemma blocks_snoc (pre b : list str) (l : str) :
  blocks b (pre ++ [l])
  = blocks_init b pre [l] ++ block (rev pre ++ b) l [].
Proof.
  revert b. induction pre as [|x pre IH]; intros b; cbn [blocks_init].
  - cbn [app blocks rev]. now rewrite app_nil_r.
  - cbn [app blocks blocks_init rev]. rewrite IH, <- !app_assoc. reflexivity.
Qed.

Lemma any_guard_snoc (pre b : list str) (l : str) :
  needs_guard (rev pre ++ b) l [] = true ->
  any_guard b (pre ++ [l]) = true.
Proof.
  revert b. induction pre as [|x pre IH]; intros b H.
  - cbn [app any_guard]. cbn [rev app] in H. now rewrite H.
  - cbn [app any_guard]. rewrite IH; [apply orb_true_r|].
    cbn [rev] in H. now rewrite <- app_assoc in H.
Qed.

(** A line [readlines] returns has no newline, except at its end. *)
Lemma readlines_from_shape (text cur : str) :
  existsb (fun c => N.eqb c NEWLINE) cur = false ->
  Forall (fun l => exists s,
            existsb (fun c => N.eqb c NEWLINE) s = false /\
            (l = s \/ l = s ++ [NEWLINE]))
    (readlines_from cur text).
Proof.
  revert cur. induction text as [|c text IH]; intros cur H.
  - cbn [readlines_from]. destruct cur as [|c0 cur0]; constructor; [|constructor].
    exists (rev (c0 :: cur0)). split; [now rewrite existsb_rev|now left].
  - cbn [readlines_from]. destruct (N.eqb c NEWLINE) eqn:E.
    + constructor; [|now apply IH].
      apply N.eqb_eq in E. subst c.
      exists (rev cur). split; [now rewrite existsb_rev|now right].
    + apply IH. cbn [existsb]. now rewrite E.
Qed.

Lemma unterminated_line_has_no_newline (text : str) (pre : list str) (l : str) :
  readlines text = pre ++ [l] ->
  N.eqb (last l SPACE) NEWLINE = false ->
  existsb (fun c => N.eqb c NEWLINE) l = false.
Proof.
  intros R L.
  pose proof (@readlines_from_shape text [] eq_refl) as F.
  fold (readlines text) in F. rewrite R in F.
  rewrite Forall_forall in F.
  destruct (F l) as [s [Hs [->| ->]]].
  - apply in_or_app. right. now left.
  - exact Hs.
  - rewrite last_last in L. discriminate.
Qed.

(** C10. Every inserted guard line ends in a newline of its own and the
    diagnostic line is written as it was read.  So when the last line of
    the file is a non-exempt diagnostic without a trailing newline (it is
    never found wrapped: nothing follows it), the text [process_file]
    writes has the close marker on the diagnostic's own physical line:
    the diagnostic is followed at once by the indentation and [#endif]. *)
Theorem last_line_runs_into_endif (text : str) (pre : list str) (l : str) :
  readlines text = pre ++ [l] ->
  is_print_statement l = true ->
  should_keep_in_production l = false ->
  N.eqb (last l SPACE) NEWLINE = false ->
  is_already_wrapped (readlines text) (length pre) = Some false /\
  exists out_pre,
    process_lines (readlines text)
    = Some (out_pre
            ++ [spaces (indent_of l) ++ lit "#if DEBUG" ++ [NEWLINE];
                l;
                spaces (indent_of l) ++ lit "#endif" ++ [NEWLINE]],
            true) /\
    writelines (transform (readlines text))
    = writelines out_pre
      ++ (spaces (indent_of l) ++ lit "#if DEBUG" ++ [NEWLINE])
      ++ l ++ spaces (indent_of l) ++ lit "#endif" ++ [NEWLINE] /\
    last (readlines (writelines (transform (readlines text)))) []
    = l ++ spaces (indent_of l) ++ lit "#endif" ++ [NEWLINE].
Proof.
  intros R Hp Hk Hl.
  pose proof (@unterminated_line_has_no_newline text pre l R Hl) as Hn.
  rewrite R.
  assert (W : is_already_wrapped (pre ++ [l]) (length pre) = Some false).
  { rewrite <- (rev_involutive pre), length_rev.
    rewrite is_already_wrapped_between. unfold wrapped_between.
    cbn [firstn existsb]. now rewrite andb_false_r. }
  split; [exact W|].
  exists (blocks_init [] pre [l]).
  assert (G : needs_guard (rev pre ++ []) l [] = true).
  { unfold needs_guard, wrapped_between.
    cbn [firstn existsb]. now rewrite Hp, Hk, andb_false_r. }
  assert (T : blocks [] (pre ++ [l])
              = blocks_init [] pre [l]
                ++ [open_guard l; l; close_guard l]).
  { rewrite blocks_snoc. f_equal. unfold block. now rewrite G. }
  assert (C : writelines (transform (pre ++ [l]))
              = writelines (blocks_init [] pre [l])
                ++ (spaces (indent_of l) ++ lit "#if DEBUG" ++ [NEWLINE])
                ++ l ++ spaces (indent_of l) ++ lit "#endif" ++ [NEWLINE]).
  { rewrite transform_blocks, T. unfold writelines. rewrite concat_app.
    cbn [concat]. unfold open_guard, close_guard.
    now rewrite app_nil_r. }
  split; [|split; [exact C|]].
  { rewrite process_lines_total, T, (any_guard_snoc pre [] l G).
    reflexivity. }
  rewrite C. unfold readlines.
  replace (writelines (blocks_init [] pre [l])
           ++ (spaces (indent_of l) ++ lit "#if DEBUG" ++ [NEWLINE])
           ++ l ++ spaces (indent_of l) ++ lit "#endif" ++ [NEWLINE])
    with ((writelines (blocks_init [] pre [l])
           ++ spaces (indent_of l) ++ lit "#if DEBUG")
          ++ NEWLINE :: ((l ++ spaces (indent_of l) ++ lit "#endif")
                         ++ [NEWLINE]))
    by (rewrite <- !app_assoc; reflexivity).
  rewrite readlines_from_app.
  rewrite (@readlines_from_line (l ++ spaces (indent_of l) ++ lit "#endif") []).
  - rewrite last_last. cbn [rev app]. now rewrite <- !app_assoc.
  - rewrite !existsb_app.
    apply orb_false_iff; split; [exact Hn|].
    apply orb_false_iff; split; [apply spaces_no_newline|reflexivity].
Qed.

(** The theorem at a file of two lines, the second being
    [    print("hello")] without a newline. *)
Lemma last_line_runs_into_endif_witness :
  readlines (Samples.ln "let x = 1" ++ Samples.hello)
  = [Samples.ln "let x = 1"] ++ [Samples.hello] /\
  is_print_statement Samples.hello = true /\
  should_keep_in_production Samples.hello = false /\
  N.eqb (last Samples.hello SPACE) NEWLINE = false /\
  last (readlines (writelines
          (transform (readlines (Samples.ln "let x = 1" ++ Samples.hello)))))
       []
  = Samples.hello ++ spaces 4 ++ lit "#endif" ++ [NEWLINE].
Proof.
  split; [reflexivity|].
  split; [reflexivity|]. split; [reflexivity|]. split; [reflexivity|].
  destruct (@last_line_runs_into_endif
              (Samples.ln "let x = 1" ++ Samples.hello)
              [Samples.ln "let x = 1"] Samples.hello
              eq_refl eq_refl eq_refl eq_refl) as [_ [out_pre [_ [_ H]]]].
  exact H.
Defined.

End LastLine.

(** ** Indentation of the inserted lines *)

Section Indentation.

Import Samples.

Lemma leading_ws_spaces (k : nat) (m : str) :
  lstrip m = m ->
  Spec.leading_ws (spaces k ++ m) = spaces k.
Proof.
  intros Hm. unfold Spec.leading_ws.
  rewrite lstrip_spaces, Hm, length_app, spaces_length.
  replace (k + length m - length m) with (length (spaces k))
    by (rewrite spaces_length; lia).
  rewrite firstn_app, firstn_all, Nat.sub_diag. cbn [firstn].
  apply app_nil_r.
Qed.

Lemma indent_spaces (k : nat) (m : str) :
  lstrip m = m ->
  length (spaces k ++ m) - length (lstrip (spaces k ++ m)) = k.
Proof.
  intros Hm. rewrite lstrip_spaces, Hm, length_app, spaces_length. lia.
Qed.

(** C6, as the scripts have it.  The lines inserted around a diagnostic
    line [l] are made of as many space characters as [l] has leading
    whitespace characters, followed at once by the marker: measured the
    way the scripts measure it, the open guard, the close guard and [l]
    have the same indentation, and the two guards have the same leading
    whitespace character for character.  It is the leading whitespace of
    [l] character for character when [l] is indented with spaces only.
    This holds for what [process_file] appends and for the guards of
    [process_swift_file]. *)
Theorem guards_are_indented_by_spaces (lines : list str) (i : nat) (l : str) :
  nth_error lines i = Some l ->
  let k := length l - length (lstrip l) in
  (WrapPrints.emitted lines i = [l] \/
   WrapPrints.emitted lines i
   = [spaces k ++ lit "#if DEBUG" ++ [NEWLINE]; l;
      spaces k ++ lit "#endif" ++ [NEWLINE]]) /\
  WrapDebugPrints.open_guard l = spaces k ++ lit "#if DEBUG" /\
  WrapDebugPrints.close_guard l = spaces k ++ lit "#endif" /\
  Forall (fun g => Spec.leading_ws g = spaces k /\
                   length g - length (lstrip g) = k /\
                   (Spec.leading_ws l = spaces k ->
                    Spec.leading_ws g = Spec.leading_ws l))
    [WrapPrints.open_guard l; WrapPrints.close_guard l;
     WrapDebugPrints.open_guard l; WrapDebugPrints.close_guard l].
Proof.
  intros H k.
  split; [exact (@emitted_cases lines i l H)|].
  split; [reflexivity|]. split; [reflexivity|].
  assert (G : forall m, lstrip m = m ->
                Spec.leading_ws (spaces k ++ m) = spaces k /\
                length (spaces k ++ m) - length (lstrip (spaces k ++ m)) = k /\
                (Spec.leading_ws l = spaces k ->
                 Spec.leading_ws (spaces k ++ m) = Spec.leading_ws l)).
  { intros m Hm. rewrite leading_ws_spaces, indent_spaces by exact Hm.
    repeat split. intros E. now rewrite E. }
  repeat constructor; apply G; reflexivity.
Qed.

Lemma guards_are_indented_by_spaces_witness :
  nth_error [ln "let x = 1"; hello] 1 = Some hello /\
  WrapPrints.emitted [ln "let x = 1"; hello] 1
  = [spaces 4 ++ lit "#if DEBUG" ++ [NEWLINE]; hello;
     spaces 4 ++ lit "#endif" ++ [NEWLINE]] /\
  Spec.leading_ws (WrapPrints.open_guard hello) = Spec.leading_ws hello.
Proof.
  split; [reflexivity|]. split; [reflexivity|].
  destruct (@guards_are_indented_by_spaces [ln "let x = 1"; hello] 1 hello
              eq_refl) as [_ [_ [_ F]]].
  inversion F as [|? ? [_ [_ E]] _]. apply E. reflexivity.
Defined.

(** C6 as the specification words it fails on a line indented with a tab: the
    line is wrapped, and the guards of either script start with a space
    where the line starts with a tab. *)
Lemma tab_indentation_becomes_spaces :
  WrapPrints.transform [tab_print]
  = [WrapPrints.open_guard tab_print; tab_print;
     WrapPrints.close_guard tab_print] /\
  Spec.leading_ws tab_print = [TAB] /\
  Spec.leading_ws (WrapPrints.open_guard tab_print) = [SPACE] /\
  Spec.leading_ws (WrapPrints.close_guard tab_print) = [SPACE] /\
  Spec.leading_ws (WrapDebugPrints.open_guard tab_print) = [SPACE] /\
  Spec.leading_ws (WrapDebugPrints.close_guard tab_print) = [SPACE] /\
  ~ (Spec.leading_ws (WrapPrints.open_guard tab_print)
     = Spec.leading_ws tab_print).
Proof.
  split; [vm_compute; reflexivity|]. split; [reflexivity|].
  split; [reflexivity|]. split; [reflexivity|].
  split; [reflexivity|]. split; [reflexivity|].
  vm_compute. discriminate.
Qed.

End Indentation.

(** ** Lines are kept; only guard lines are added *)

Section Preservation.

Import WrapPrints Samples.

Lemma blocks_inserts_only (rest b : list str) :
  Spec.inserts_only rest (blocks b rest).
Proof.
  revert b. induction rest as [|l a IH]; intros b; [constructor|].
  cbn [blocks]. unfold block. destruct (needs_guard b l a); cbn [app].
  - apply Spec.ins_guard; [apply open_guard_is_guard_line|].
    apply Spec.ins_keep.
    apply Spec.ins_guard; [apply close_guard_is_guard_line|].
    apply IH.
  - apply Spec.ins_keep, IH.
Qed.

Lemma blocks_filter_print (rest b : list str) :
  filter is_print_statement (blocks b rest) = filter is_print_statement rest.
Proof.
  revert b. induction rest as [|l a IH]; intros b; [reflexivity|].
  cbn [blocks]. unfold block. destruct (needs_guard b l a);
    cbn [app filter];
    rewrite ?open_guard_not_print, ?close_guard_not_print, IH; reflexivity.
Qed.

Lemma blocks_filter_plain (rest b : list str) :
  Spec.inserts_only
    (filter (fun l => negb (is_print_statement l)) rest)
    (filter (fun l => negb (is_print_statement l)) (blocks b rest)).
Proof.
  revert b. induction rest as [|l a IH]; intros b; [constructor|].
  cbn [blocks]. unfold block, needs_guard.
  destruct (is_print_statement l) eqn:P; cbn [andb].
  - destruct (negb (wrapped_between b a || should_keep_in_production l));
      cbn [app filter];
      rewrite ?open_guard_not_print, ?close_guard_not_print, P; cbn [negb].
    + apply Spec.ins_guard; [apply open_guard_is_guard_line|].
      apply Spec.ins_guard; [apply close_guard_is_guard_line|].
      apply IH.
    + apply IH.
  - cbn [app filter]. rewrite P. cbn [negb]. apply Spec.ins_keep, IH.
Qed.

Lemma inserts_only_In (xs ys : list str) (l : str) :
  Spec.inserts_only xs ys -> In l xs -> In l ys.
Proof.
  induction 1 as [|x xs ys _ IH|g xs ys _ _ IH]; intros HIn.
  - exact HIn.
  - destruct HIn as [->|HIn]; [now left|right; now apply IH].
  - right. now apply IH.
Qed.

Lemma marked_blocks_lines (rest b : list str) :
  map snd (marked_blocks b rest) = blocks b rest.
Proof.
  revert b. induction rest as [|l a IH]; intros b; [reflexivity|].
  cbn [marked_blocks blocks]. rewrite map_app, IH. f_equal.
  unfold marked_block, block. now destruct (needs_guard b l a).
Qed.

Lemma marked_blocks_input (rest b : list str) (keep : str -> bool) :
  map snd (filter (fun x => negb (fst x) && keep (snd x))
             (marked_blocks b rest))
  = filter keep rest.
Proof.
  revert b. induction rest as [|l a IH]; intros b; [reflexivity|].
  cbn [marked_blocks]. rewrite filter_app, map_app, IH.
  unfold marked_block.
  destruct (needs_guard b l a); cbn [filter fst snd negb andb app];
    destruct (keep l); reflexivity.
Qed.

Lemma marked_blocks_made_up (rest b : list str) (x : bool * str) :
  In x (marked_blocks b rest) -> fst x = true -> Spec.guard_line (snd x).
Proof.
  revert b. induction rest as [|l a IH]; intros b HIn Hx; [destruct HIn|].
  cbn [marked_blocks] in HIn. apply in_app_or in HIn as [HIn|HIn];
    [|now apply (IH (l :: b))].
  unfold marked_block in HIn.
  destruct (needs_guard b l a); cbn [In] in HIn.
  - destruct HIn as [<-|[<-|[<-|[]]]]; try discriminate.
    + apply open_guard_is_guard_line.
    + apply close_guard_is_guard_line.
  - destruct HIn as [<-|[]]. discriminate.
Qed.

(** C3. Mark every line of the output as taken from the input or made
    up by the loop.  The lines taken from the input are the input, line
    for line and in order, so among them the lines that are not
    diagnostic calls (no [print(], or a comment) are the same sequence
    before and after; every made-up line is a guard-marker line; a line
    that is not a diagnostic call never gets anything inserted for it.
    Told without the marks: the output is the input with guard-marker
    lines put in, its diagnostic lines are those of the input, and its
    other lines are those of the input, in order, with the guard lines
    among them. *)
Theorem only_guard_lines_are_inserted (lines : list str) :
  map snd (marked_transform lines) = transform lines /\
  map snd (filter (fun x => negb (fst x)) (marked_transform lines)) = lines /\
  map snd (filter (fun x => negb (fst x)
                            && negb (is_print_statement (snd x)))
             (marked_transform lines))
  = filter (fun l => negb (is_print_statement l)) lines /\
  (forall x, In x (marked_transform lines) -> fst x = true ->
             Spec.guard_line (snd x)) /\
  Spec.inserts_only lines (transform lines) /\
  filter is_print_statement (transform lines)
  = filter is_print_statement lines /\
  Spec.inserts_only
    (filter (fun l => negb (is_print_statement l)) lines)
    (filter (fun l => negb (is_print_statement l)) (transform lines)) /\
  (forall i l, nth_error lines i = Some l ->
               is_print_statement l = false -> emitted lines i = [l]).
Proof.
  rewrite transform_blocks. unfold marked_transform.
  split; [apply marked_blocks_lines|].
  split.
  { rewrite <- (filter_true lines) at 2.
    rewrite <- (marked_blocks_input lines [] (fun _ => true)).
    f_equal. apply filter_ext. intros x. now rewrite andb_true_r. }
  split; [apply (marked_blocks_input lines []
                   (fun l => negb (is_print_statement l)))|].
  split; [apply marked_blocks_made_up|].
  split; [apply blocks_inserts_only|].
  split; [apply blocks_filter_print|].
  split; [apply blocks_filter_plain|].
  intros i l H P. unfold emitted. now rewrite H, P.
Qed.

Lemma only_guard_lines_are_inserted_witness :
  nth_error mixed 1 = Some (ln "let x = 1") /\
  is_print_statement (ln "let x = 1") = false /\
  emitted mixed 1 = [ln "let x = 1"] /\
  Spec.inserts_only mixed (transform mixed).
Proof.
  split; [reflexivity|]. split; [reflexivity|].
  destruct (only_guard_lines_are_inserted mixed)
    as [_ [_ [_ [_ [I [_ [_ E]]]]]]].
  split; [|exact I].
  exact (E 1 (ln "let x = 1") eq_refl eq_refl).
Defined.

Lemma transform_keeps_lines (lines : list str) (l : str) :
  In l lines -> In l (transform lines).
Proof.
  apply inserts_only_In. rewrite transform_blocks. apply blocks_inserts_only.
Qed.

Lemma iter_transform_keeps_lines (n : nat) (lines : list str) (l : str) :
  In l lines -> In l (Nat.iter n transform lines).
Proof.
  intros H. induction n as [|n IH]; [exact H|].
  cbn [Nat.iter nat_rect]. now apply transform_keeps_lines.
Qed.

(** C2. Take any number [n] of runs and a diagnostic line [l] of the
    result that holds an exemption pattern.  The next run appends [l]
    alone for it, so its output is the output for the lines above [l],
    then [l], then the output for the lines below it; guard lines are
    only ever appended around the line they are made for, so none is put
    around [l].  The line is still there after any further number of
    runs. *)
Theorem exempt_line_is_never_wrapped
    (n : nat) (lines : list str) (i : nat) (l : str) :
  nth_error (Nat.iter n transform lines) i = Some l ->
  is_print_statement l = true ->
  should_keep_in_production l = true ->
  let now_lines := Nat.iter n transform lines in
  emitted now_lines i = [l] /\
  transform now_lines
  = concat (map (emitted now_lines) (seq 0 i))
    ++ l :: concat (map (emitted now_lines)
                      (seq (S i) (length now_lines - S i))) /\
  (forall j x, nth_error now_lines j = Some x ->
     emitted now_lines j = [x] \/
     emitted now_lines j = [open_guard x; x; close_guard x]) /\
  forall m, In l (Nat.iter m transform now_lines).
Proof.
  intros H P K now_lines. fold now_lines in H.
  assert (Hi : i < length now_lines) by (apply nth_error_Some; congruence).
  assert (E : emitted now_lines i = [l]).
  { unfold emitted. rewrite H, P, is_already_wrapped_slices by exact Hi.
    now rewrite K, orb_true_r. }
  split; [exact E|]. split; [|split].
  - rewrite transform_emitted.
    replace (length now_lines) with (i + S (length now_lines - S i)) at 1
      by lia.
    rewrite seq_app, map_app, concat_app. cbn [seq map concat plus].
    now rewrite E.
  - intros j x Hj. now apply emitted_cases.
  - intros m. apply iter_transform_keeps_lines.
    eapply nth_error_In; eassumption.
Qed.

Lemma exempt_line_is_never_wrapped_witness :
  nth_error (Nat.iter 2 transform mixed) 7 = Some critical /\
  is_print_statement critical = true /\
  should_keep_in_production critical = true /\
  emitted (Nat.iter 2 transform mixed) 7 = [critical].
Proof.
  split; [vm_compute; reflexivity|].
  split; [reflexivity|]. split; [reflexivity|].
  apply (@exempt_line_is_never_wrapped 2 mixed 7 critical);
    vm_compute; reflexivity.
Defined.

End Preservation.

(** ** Running the transform again *)

Section Idempotence.

Import WrapPrints Samples.

(** C1 as the specification words it fails: in a debug block with two
    diagnostics three statements apart, the first run wraps the first
    diagnostic only, which moves the opening marker out of the window of
    the second one; the second run then wraps the second one too. *)
Lemma second_run_changes_debug_block :
  transform debug_block
  = [ ln "#if DEBUG"; ln "#if DEBUG"; ln "print(a)"; ln "#endif";
      ln "let x = 1"; ln "let y = 2"; ln "let z = 3";
      ln "print(b)"; ln "#endif" ] /\
  transform (transform debug_block)
  = [ ln "#if DEBUG"; ln "#if DEBUG"; ln "print(a)"; ln "#endif";
      ln "let x = 1"; ln "let y = 2"; ln "let z = 3";
      ln "#if DEBUG"; ln "print(b)"; ln "#endif"; ln "#endif" ] /\
  transform (transform debug_block) <> transform debug_block.
Proof.
  split; [vm_compute; reflexivity|]. split; [vm_compute; reflexivity|].
  vm_compute. discriminate.
Qed.

Lemma tight_from_index (rest b : list str) :
  forallb (Spec.tight_at (rev b ++ rest)) (seq (length b) (length rest))
  = Spec.tight_from b rest.
Proof.
  revert b. induction rest as [|l a IH]; intros b; [reflexivity|].
  cbn [length seq forallb Spec.tight_from].
  replace (rev b ++ l :: a) with (rev (l :: b) ++ a) at 2
    by (cbn [rev]; now rewrite <- app_assoc).
  change (S (length b)) with (length (l :: b)). rewrite IH. f_equal.
  unfold Spec.tight_at.
  rewrite is_already_wrapped_between.
  rewrite nth_error_app2 by (rewrite length_rev; lia).
  rewrite length_rev, Nat.sub_diag. cbn [nth_error].
  destruct (wrapped_between b a); [|reflexivity].
  destruct (is_print_statement l && negb (should_keep_in_production l));
    [|reflexivity].
  assert (A : Spec.marker_at ENDIF (rev b ++ l :: a) (length b + 1)
              = Spec.first_has ENDIF a).
  { unfold Spec.marker_at.
    rewrite nth_error_app2 by (rewrite length_rev; lia).
    rewrite length_rev.
    replace (length b + 1 - length b) with 1 by lia.
    destruct a; reflexivity. }
  rewrite A. f_equal.
  destruct b as [|h t]; [reflexivity|].
  cbn [length Nat.ltb Nat.leb andb Spec.first_has].
  unfold Spec.marker_at. cbn [rev].
  rewrite <- !app_assoc.
  rewrite nth_error_app2 by (rewrite length_rev; lia).
  rewrite length_rev.
  replace (S (length t) - 1 - length t) with 0 by lia.
  reflexivity.
Qed.

Lemma tightly_wrapped_from (lines : list str) :
  Spec.tightly_wrapped lines = Spec.tight_from [] lines.
Proof. exact (tight_from_index lines []). Qed.

(** The first lines of the output for [c :: a] hold the markers of [c]. *)
Lemma blocks_keep_endif (b : list str) (a : list str) :
  Spec.first_has ENDIF a = true ->
  existsb (contains ENDIF) (firstn 4 (blocks b a)) = true.
Proof.
  destruct a as [|c a']; [discriminate|]. cbn [Spec.first_has]. intros H.
  cbn [blocks]. unfold block. destruct (needs_guard b c a'); cbn [app firstn existsb].
  - rewrite H. now rewrite !orb_true_r.
  - now rewrite H.
Qed.

(** Second pass over the output of a first pass.  [b] are the input
    lines above, [b'] the output lines above: when the input line right
    above holds [#if DEBUG], the marker is within the window in the
    output too. *)
Lemma blocks_fixed (rest : list str) :
  forall b b',
    (Spec.first_has IF_DEBUG b = true ->
     existsb (contains IF_DEBUG) (firstn 5 b') = true) ->
    Spec.tight_from b rest = true ->
    blocks b' (blocks b rest) = blocks b rest.
Proof.
  induction rest as [|l a IH]; intros b b' Inv T; [reflexivity|].
  cbn [Spec.tight_from] in T. apply andb_true_iff in T as [T1 T2].
  cbn [blocks]. unfold block.
  destruct (needs_guard b l a) eqn:G; cbn [app blocks].
  - (* the first pass wrapped [l] *)
    unfold block. unfold needs_guard at 1 3.
    rewrite open_guard_not_print, close_guard_not_print. cbn [andb app].
    unfold needs_guard, wrapped_between. cbn [firstn existsb].
    rewrite open_guard_if_debug, close_guard_endif.
    cbn [orb andb negb]. rewrite andb_false_r. cbn [app].
    do 3 f_equal. apply IH; [|exact T2].
    intros _. cbn [firstn existsb].
    now rewrite open_guard_if_debug, !orb_true_r.
  - (* the first pass left [l] alone *)
    assert (G' : needs_guard b' l (blocks (l :: b) a) = false).
    { unfold needs_guard in G |- *.
      destruct (is_print_statement l); [|reflexivity].
      cbn [andb] in G |- *. apply negb_false_iff in G.
      apply negb_false_iff.
      destruct (should_keep_in_production l); [apply orb_true_r|].
      rewrite orb_false_r in G. rewrite G in T1. cbn [negb andb] in T1.
      apply andb_true_iff in T1 as [To Tc].
      rewrite orb_false_r. unfold wrapped_between.
      rewrite (Inv To), (blocks_keep_endif (l :: b) a Tc). reflexivity. }
    unfold block. rewrite G'. cbn [app]. f_equal.
    apply IH; [|exact T2].
    cbn [Spec.first_has firstn existsb]. intros ->. reflexivity.
Qed.

(** C1, as the code has it.  On every input where each non-exempt
    diagnostic that [is_already_wrapped] accepts has [#if DEBUG] on the
    line right above it and [#endif] on the line right below it (so on
    every input without guard markers, and on the triples the transform
    writes), a second run changes nothing:
    [transform (transform lines) = transform lines]. *)
Theorem transform_idempotent_on_tight_input (lines : list str) :
  Spec.tightly_wrapped lines = true ->
  transform (transform lines) = transform lines.
Proof.
  intros T. rewrite tightly_wrapped_from in T.
  rewrite !transform_blocks. apply blocks_fixed; [discriminate|exact T].
Qed.

Lemma transform_idempotent_on_tight_input_witness :
  Spec.tightly_wrapped (transform mixed) = true /\
  transform (transform (transform mixed)) = transform (transform mixed).
Proof.
  split; [vm_compute; reflexivity|].
  apply transform_idempotent_on_tight_input. vm_compute. reflexivity.
Defined.

End Idempotence.

(** ** wrap_debug_prints.py: the loop as blocks *)

Section WrapDebugPrintsLoop.

Import WrapDebugPrints.

Lemma already_wrapped_before (b : list str) (l : str) (a : list str) :
  already_wrapped (rev b ++ l :: a) (length b)
  = Some (Spec.first_has IF_DEBUG b).
Proof.
  unfold already_wrapped. destruct b as [|h t]; [reflexivity|].
  cbn [length Nat.ltb Nat.leb rev Spec.first_has].
  rewrite <- !app_assoc.
  rewrite nth_error_app2 by (rewrite length_rev; lia).
  rewrite length_rev.
  replace (S (length t) - 1 - length t) with 0 by lia.
  reflexivity.
Qed.

Lemma swift_while_loop_blocks (rest b : list str) :
  forall fuel acc,
    length rest <= fuel ->
    while_loop fuel (rev b ++ rest) (length b) acc
    = Some (acc ++ blocks b rest).
Proof.
  revert b. induction rest as [|l a IH]; intros b fuel acc Hfuel.
  - assert (E : (length b <? length (rev b ++ [])) = false).
    { apply Nat.ltb_ge. rewrite app_nil_r, length_rev. lia. }
    destruct fuel; cbn [while_loop]; rewrite E;
      cbn [blocks]; now rewrite app_nil_r.
  - destruct fuel as [|fuel]; [simpl in Hfuel; lia|].
    assert (E : (length b <? length (rev b ++ l :: a)) = true).
    { apply Nat.ltb_lt. rewrite length_app, length_rev. simpl. lia. }
    assert (N : nth_error (rev b ++ l :: a) (length b) = Some l).
    { rewrite nth_error_app2 by (rewrite length_rev; lia).
      rewrite length_rev, Nat.sub_diag. reflexivity. }
    assert (L : rev b ++ l :: a = rev (l :: b) ++ a).
    { simpl. now rewrite <- app_assoc. }
    cbn [while_loop]. rewrite E, N, already_wrapped_before.
    cbn [blocks]. unfold block, needs_guard.
    replace (length b + 1) with (length (l :: b)) by (simpl; lia).
    rewrite L.
    change (match b with
            | [] => false
            | prev :: _ => contains IF_DEBUG prev
            end) with (Spec.first_has IF_DEBUG b).
    destruct (is_print_statement l); cbn [andb];
      [destruct (Spec.first_has IF_DEBUG b); cbn [negb]|];
      rewrite IH by (simpl in Hfuel; lia);
      now rewrite <- app_assoc.
Qed.

(** [process_swift_file] always comes to an end, without an
    [IndexError]. *)
Lemma swift_process_lines_total (lines : list str) :
  process_lines lines = Some (blocks [] lines).
Proof.
  exact (@swift_while_loop_blocks lines [] (length lines) [] (le_n _)).
Qed.

Lemma swift_transform_blocks (lines : list str) :
  transform lines = blocks [] lines.
Proof. unfold transform. now rewrite swift_process_lines_total. Qed.

Lemma swift_open_guard_not_print (l : str) :
  is_print_statement (open_guard l) = false.
Proof.
  unfold is_print_statement, open_guard. marker_test.
Qed.

Lemma swift_close_guard_not_print (l : str) :
  is_print_statement (close_guard l) = false.
Proof.
  unfold is_print_statement, close_guard. marker_test.
Qed.

Lemma swift_open_guard_if_debug (l : str) :
  contains IF_DEBUG (open_guard l) = true.
Proof.
  unfold open_guard. marker_test.
Qed.

Lemma swift_close_guard_markers (l : str) :
  contains IF_DEBUG (close_guard l) = false /\
  contains WrapPrints.ENDIF (close_guard l) = true.
Proof.
  unfold close_guard. split; marker_test.
Qed.

End WrapDebugPrintsLoop.

(** ** Guard pairs around a line *)

Section Nesting.

Import Samples.

(** C5 as the specification words it fails: the only diagnostic of this debug
    block has the closing marker five lines below it, is not found
    wrapped, and gets a second guard pair inside the first one.
    [process_swift_file] does the same as soon as the diagnostic is not
    the first statement of its block. *)
Lemma guard_pair_inside_debug_block :
  WrapPrints.is_print_statement (ln "print(a)") = true /\
  Spec.enclosing_pairs long_block 1 = 1 /\
  WrapPrints.transform long_block
  = [ ln "#if DEBUG"; ln "#if DEBUG"; ln "print(a)"; ln "#endif";
      ln "let x = 1"; ln "let y = 2"; ln "let z = 3"; ln "let t = 4";
      ln "#endif" ] /\
  Spec.enclosing_pairs (WrapPrints.transform long_block) 2 = 2 /\
  ~ (Spec.enclosing_pairs (Nat.iter 1 WrapPrints.transform long_block) 2 <= 1)
  /\
  WrapDebugPrints.transform spaced_block
  = [ ln "#if DEBUG"; ln "let x = 1"; lit "#if DEBUG"; ln "print(a)";
      lit "#endif"; ln "#endif" ] /\
  Spec.enclosing_pairs (WrapDebugPrints.transform spaced_block) 3 = 2.
Proof.
  split; [reflexivity|]. split; [reflexivity|].
  split; [vm_compute; reflexivity|]. split; [vm_compute; reflexivity|].
  split; [vm_compute; lia|].
  split; vm_compute; reflexivity.
Qed.

Lemma existsb_firstn_none (f : str -> bool) (n : nat) (l : list str) :
  forallb (fun x => negb (f x)) l = true ->
  existsb f (firstn n l) = false.
Proof.
  revert n. induction l as [|x l IH]; intros [|n] H; try reflexivity.
  cbn [forallb] in H. apply andb_true_iff in H as [Hx Hl].
  cbn [firstn existsb]. apply negb_true_iff in Hx. rewrite Hx.
  now apply IH.
Qed.

Lemma no_open_tight_from (rest b : list str) :
  Spec.no_open_guard b = true ->
  Spec.no_open_guard rest = true ->
  Spec.tight_from b rest = true.
Proof.
  revert b. induction rest as [|l a IH]; intros b Hb Hr; [reflexivity|].
  cbn [Spec.tight_from]. unfold WrapPrints.wrapped_between.
  rewrite (existsb_firstn_none _ 5 b Hb). cbn [andb].
  unfold Spec.no_open_guard in Hr. cbn [forallb] in Hr.
  apply andb_true_iff in Hr as [Hl Ha].
  apply IH; [|exact Ha].
  unfold Spec.no_open_guard. cbn [forallb]. now rewrite Hl.
Qed.

Lemma iter_fixed (f : list str -> list str) (x : list str) (n : nat) :
  f (f x) = f x -> Nat.iter (S n) f x = f x.
Proof.
  intros H. induction n as [|n IH]; [reflexivity|].
  change (Nat.iter (S (S n)) f x) with (f (Nat.iter (S n) f x)).
  now rewrite IH.
Qed.

Lemma blocks_guarded_copy (rest b : list str) :
  Spec.guarded_copy rest (WrapPrints.blocks b rest).
Proof.
  revert b. induction rest as [|l a IH]; intros b; [constructor|].
  cbn [WrapPrints.blocks]. unfold WrapPrints.block.
  destruct (WrapPrints.needs_guard b l a); cbn [app].
  - apply Spec.gc_wrap; [apply open_guard_if_debug
                        |apply close_guard_no_if_debug
                        |apply close_guard_endif|apply IH].
  - apply Spec.gc_keep, IH.
Qed.

Lemma swift_blocks_guarded_copy (rest b : list str) :
  Spec.guarded_copy rest (WrapDebugPrints.blocks b rest).
Proof.
  revert b. induction rest as [|l a IH]; intros b; [constructor|].
  cbn [WrapDebugPrints.blocks]. unfold WrapDebugPrints.block.
  destruct (WrapDebugPrints.needs_guard b l); cbn [app].
  - apply Spec.gc_wrap; [apply swift_open_guard_if_debug
                        |apply swift_close_guard_markers
                        |apply swift_close_guard_markers|apply IH].
  - apply Spec.gc_keep, IH.
Qed.

Lemma guarded_copy_refl (xs : list str) : Spec.guarded_copy xs xs.
Proof. induction xs; constructor; assumption. Qed.

Lemma enter_no_open (d : nat) (x : str) :
  contains WrapPrints.IF_DEBUG x = false -> Spec.enter d x <= d.
Proof.
  intros H. unfold Spec.enter. rewrite H.
  destruct (contains WrapPrints.ENDIF x); lia.
Qed.

(** In a guarded copy of lines without [#if DEBUG], the guards are all
    closed at the end and at most one is open anywhere. *)
Lemma guarded_copy_depth (xs ys : list str) :
  Spec.guarded_copy xs ys ->
  Spec.no_open_guard xs = true ->
  fold_left Spec.enter ys 0 = 0 /\
  forall p, fold_left Spec.enter (firstn p ys) 0 <= 1.
Proof.
  induction 1 as [|x xs ys _ IH|o c x xs ys Ho Hc1 Hc2 _ IH]; intros N.
  - split; [reflexivity|]. intros [|p]; simpl; lia.
  - unfold Spec.no_open_guard in N. cbn [forallb] in N.
    apply andb_true_iff in N as [Nx Nxs]. apply negb_true_iff in Nx.
    destruct (IH Nxs) as [IH1 IH2].
    assert (E : Spec.enter 0 x = 0)
      by (pose proof (enter_no_open 0 x Nx); lia).
    split.
    + cbn [fold_left]. now rewrite E.
    + intros [|p]; cbn [firstn fold_left]; [lia|]. rewrite E. apply IH2.
  - unfold Spec.no_open_guard in N. cbn [forallb] in N.
    apply andb_true_iff in N as [Nx Nxs]. apply negb_true_iff in Nx.
    destruct (IH Nxs) as [IH1 IH2].
    assert (Eo : Spec.enter 0 o = 1) by (unfold Spec.enter; now rewrite Ho).
    assert (Ex : Spec.enter 1 x <= 1) by (now apply enter_no_open).
    assert (Ec : forall d, d <= 1 -> Spec.enter d c = 0).
    { intros d Hd. unfold Spec.enter. rewrite Hc1, Hc2. lia. }
    split.
    + cbn [fold_left]. now rewrite Eo, (Ec _ Ex).
    + intros [|[|[|p]]]; cbn [firstn fold_left]; rewrite ?Eo; try lia.
      rewrite (Ec _ Ex). apply IH2.
Qed.

Lemma guarded_copy_enclosing (xs ys : list str) (p : nat) :
  Spec.guarded_copy xs ys ->
  Spec.no_open_guard xs = true ->
  Spec.enclosing_pairs ys p <= 1.
Proof.
  intros G N. unfold Spec.enclosing_pairs, Spec.open_above.
  pose proof (proj2 (guarded_copy_depth G N) p). lia.
Qed.

(** A second run of [process_swift_file] over the output of a first one
    on lines without [#if DEBUG]. *)
Lemma swift_blocks_fixed (rest : list str) :
  forall b b',
    Spec.no_open_guard rest = true ->
    Spec.first_has WrapPrints.IF_DEBUG b = false ->
    WrapDebugPrints.blocks b' (WrapDebugPrints.blocks b rest)
    = WrapDebugPrints.blocks b rest.
Proof.
  induction rest as [|l a IH]; intros b b' N Hb; [reflexivity|].
  unfold Spec.no_open_guard in N. cbn [forallb] in N.
  apply andb_true_iff in N as [Nl Na]. apply negb_true_iff in Nl.
  cbn [WrapDebugPrints.blocks]. unfold WrapDebugPrints.block.
  unfold WrapDebugPrints.needs_guard.
  change (match b with
          | [] => false
          | prev :: _ => contains WrapDebugPrints.IF_DEBUG prev
          end) with (Spec.first_has WrapPrints.IF_DEBUG b).
  rewrite Hb. cbn [negb]. rewrite andb_true_r.
  destruct (WrapDebugPrints.is_print_statement l) eqn:P;
    cbn [app WrapDebugPrints.blocks]; unfold WrapDebugPrints.block,
    WrapDebugPrints.needs_guard.
  - rewrite swift_open_guard_not_print, swift_close_guard_not_print,
      swift_open_guard_if_debug.
    cbn [andb negb app]. rewrite andb_false_r. cbn [app].
    do 3 f_equal. apply IH; [exact Na|exact Nl].
  - rewrite P. cbn [andb app]. f_equal. apply IH; [exact Na|exact Nl].
Qed.

(** C5, as the code has it.  When no line of the input holds
    [#if DEBUG], then after any number of runs, of [process_file] or of
    [process_swift_file], no line of the result is enclosed by more than
    one guard pair. *)
Theorem no_nesting_without_open_guard (lines : list str) (n p : nat) :
  Spec.no_open_guard lines = true ->
  Spec.enclosing_pairs (Nat.iter n WrapPrints.transform lines) p <= 1 /\
  Spec.enclosing_pairs (Nat.iter n WrapDebugPrints.transform lines) p <= 1.
Proof.
  intros N. destruct n as [|n].
  - split; exact (guarded_copy_enclosing p (guarded_copy_refl lines) N).
  - split.
    + rewrite iter_fixed.
      * rewrite transform_blocks.
        exact (guarded_copy_enclosing p (blocks_guarded_copy lines []) N).
      * rewrite !transform_blocks.
        apply blocks_fixed; [discriminate|].
        now apply no_open_tight_from.
    + rewrite iter_fixed.
      * rewrite swift_transform_blocks.
        exact (guarded_copy_enclosing p
                 (swift_blocks_guarded_copy lines []) N).
      * rewrite !swift_transform_blocks.
        now apply swift_blocks_fixed.
Qed.

Lemma no_nesting_without_open_guard_witness :
  Spec.no_open_guard mixed = true /\
  Spec.enclosing_pairs (Nat.iter 3 WrapPrints.transform mixed) 1 = 1 /\
  Spec.enclosing_pairs (Nat.iter 3 WrapPrints.transform mixed) 1 <= 1 /\
  Spec.enclosing_pairs (Nat.iter 3 WrapDebugPrints.transform mixed) 1 <= 1.
Proof.
  split; [reflexivity|]. split; [vm_compute; reflexivity|].
  apply (@no_nesting_without_open_guard mixed 3 1). reflexivity.
Defined.

End Nesting.

(** ** When a diagnostic counts as wrapped *)

Section Classification.

Import WrapPrints Samples.

(** C4 as the specification words it fails: [print(b)] has another diagnostic
    between it and [#if DEBUG], which by the wording makes it Unwrapped and
    earns it a guard pair; [is_already_wrapped] does not look at the
    lines in between, finds it wrapped, and the file is left as it is. *)
Lemma diagnostic_in_between_is_ignored :
  nth_error debug_pair 2 = Some (ln "print(b)") /\
  is_print_statement (ln "print(b)") = true /\
  should_keep_in_production (ln "print(b)") = false /\
  Spec.spec_wrapped debug_pair 2 = false /\
  is_already_wrapped debug_pair 2 = Some true /\
  emitted debug_pair 2 = [ln "print(b)"] /\
  transform debug_pair = debug_pair.
Proof. repeat split; vm_compute; reflexivity. Qed.

Lemma slice_clamp (lines : list str) (a b : nat) :
  slice lines a (Nat.min (length lines) b) = slice lines a b.
Proof.
  unfold slice.
  destruct (Nat.le_gt_cases b (length lines)) as [H|H].
  - now rewrite Nat.min_r by exact H.
  - rewrite Nat.min_l by lia.
    rewrite !firstn_all2; [reflexivity| |]; rewrite length_skipn; lia.
Qed.

Lemma existsb_firstn_S (f : str -> bool) (n : nat) (l : list str) :
  existsb f (firstn (S n) l) = false -> existsb f (firstn n l) = false.
Proof.
  revert l. induction n as [|n IH]; intros l H; [reflexivity|].
  destruct l as [|x l]; [reflexivity|].
  cbn [firstn existsb] in H |- *.
  apply orb_false_iff in H as [Hx Hl]. rewrite Hx. now apply IH.
Qed.

(** C4, as the code has it.  For a non-exempt diagnostic line
    [lines[i]]:
    - when a line of [lines[i-5:i]] holds [#if DEBUG] and a line of
      [lines[i+1:i+5]] holds [#endif], the line is found wrapped and is
      appended alone, whatever the lines between the markers and it are;
    - when no line of [lines[i-5:i]] holds [#if DEBUG], or no line of
      [lines[i+1:i+6]] holds [#endif], the line is found not wrapped and
      is appended between its two guard lines. *)
Theorem wrapped_when_markers_in_window (lines : list str) (i : nat) (l : str) :
  nth_error lines i = Some l ->
  is_print_statement l = true ->
  should_keep_in_production l = false ->
  (existsb (contains IF_DEBUG) (slice lines (i - 5) i) = true ->
   existsb (contains ENDIF) (slice lines (i + 1) (i + 5)) = true ->
   is_already_wrapped lines i = Some true /\ emitted lines i = [l]) /\
  (existsb (contains IF_DEBUG) (slice lines (i - 5) i) = false \/
   existsb (contains ENDIF) (slice lines (i + 1) (i + 6)) = false ->
   is_already_wrapped lines i = Some false /\
   emitted lines i = [open_guard l; l; close_guard l]).
Proof.
  intros H P K.
  assert (Hi : i < length lines) by (apply nth_error_Some; congruence).
  pose proof (is_already_wrapped_slices lines Hi) as W.
  rewrite slice_clamp in W.
  unfold emitted. rewrite H, P, K, W. split.
  - intros -> ->. split; reflexivity.
  - intros [E|E].
    + rewrite E. split; reflexivity.
    + assert (E4 : existsb (contains ENDIF) (slice lines (i + 1) (i + 5))
                   = false).
      { unfold slice in E |- *.
        replace (i + 6 - (i + 1)) with 5 in E by lia.
        replace (i + 5 - (i + 1)) with 4 by lia.
        now apply existsb_firstn_S. }
      rewrite E4, andb_false_r. split; reflexivity.
Qed.

Lemma wrapped_when_markers_in_window_witness :
  nth_error debug_block 5 = Some (ln "print(b)") /\
  is_print_statement (ln "print(b)") = true /\
  should_keep_in_production (ln "print(b)") = false /\
  existsb (contains IF_DEBUG) (slice debug_block (5 - 5) 5) = true /\
  existsb (contains ENDIF) (slice debug_block (5 + 1) (5 + 5)) = true /\
  is_already_wrapped debug_block 5 = Some true /\
  emitted debug_block 5 = [ln "print(b)"].
Proof.
  split; [reflexivity|]. split; [reflexivity|]. split; [reflexivity|].
  split; [reflexivity|]. split; [reflexivity|].
  apply (@wrapped_when_markers_in_window debug_block 5 (ln "print(b)"));
    reflexivity.
Defined.

End Classification.

(** ** The command lines *)

Section CommandLines.

Import SampleWorlds.

(** C8. When [focusmate/Focusmate] does not exist, [main] of either
    script asks whether it exists, prints that it was not found and
    returns: nothing is listed, no file is read or written, and the files
    are as they were. *)
Theorem missing_root_stops_the_run (w : world) :
  root w = None ->
  WrapPrintsMain.main w
  = (inr tt, World None (files w) (trace w ++ [Ev_exists; Ev_print Not_found]))
  /\
  WrapDebugPrintsMain.main w
  = (inr tt,
     World None (files w) (trace w ++ [Ev_exists; Ev_print Dir_not_found])).
Proof.
  intros H. unfold WrapPrintsMain.main, WrapDebugPrintsMain.main.
  unfold bind, dir_exists, print, log. rewrite H. cbn.
  now rewrite <- !app_assoc.
Qed.

Lemma missing_root_stops_the_run_witness :
  root no_root = None /\
  WrapPrintsMain.main no_root
  = (inr tt, World None (files no_root) [Ev_exists; Ev_print Not_found]) /\
  WrapDebugPrintsMain.main no_root
  = (inr tt, World None (files no_root) [Ev_exists; Ev_print Dir_not_found]).
Proof.
  split; [reflexivity|].
  exact (@missing_root_stops_the_run no_root eq_refl).
Defined.

(** *** Failures of single files *)

Lemma printed_app (t1 t2 : list event) :
  Report.printed (t1 ++ t2) = Report.printed t1 ++ Report.printed t2.
Proof.
  induction t1 as [|ev t1 IH]; [reflexivity|].
  destruct ev; cbn [app Report.printed]; now rewrite IH.
Qed.

Lemma reads_app (t1 t2 : list event) :
  Report.reads (t1 ++ t2) = Report.reads t1 ++ Report.reads t2.
Proof.
  induction t1 as [|ev t1 IH]; [reflexivity|].
  destruct ev; cbn [app Report.reads]; now rewrite IH.
Qed.

Lemma modified_count_app (t1 t2 : list event) :
  Report.modified_count (t1 ++ t2)
  = Report.modified_count t1 + Report.modified_count t2.
Proof.
  unfold Report.modified_count.
  now rewrite printed_app, filter_app, length_app.
Qed.

Lemma summary_app (t1 t2 : list event) :
  Report.summary (t1 ++ t2) = Report.summary t1 ++ Report.summary t2.
Proof. unfold Report.summary. now rewrite printed_app, filter_app. Qed.

(** The three ways [process_file] ends: an exception, [False], or
    [True] after the file was written. *)
Lemma process_file_cases (p : path) (w : world) :
  (exists e,
     WrapPrintsMain.process_file p w
     = (inl e, World (root w) (files w) (trace w ++ [Ev_read p]))) \/
  WrapPrintsMain.process_file p w
  = (inr false, World (root w) (files w) (trace w ++ [Ev_read p])) \/
  (exists c,
     WrapPrintsMain.process_file p w
     = (inr true,
        World (root w) (update p c (files w))
              (trace w ++ [Ev_read p; Ev_write p c]))).
Proof.
  unfold WrapPrintsMain.process_file, bind, read_text.
  destruct (lookup p (files w)) as [f|] eqn:L; [|left; eauto].
  destruct (read_exn f) as [e|]; [left; eauto|].
  rewrite process_lines_total.
  destruct (WrapPrints.any_guard [] (readlines (text f)));
    [|right; left; reflexivity].
  unfold write_text, ret. cbn [files root trace]. rewrite L.
  destruct (write_exn f) as [e|]; [left; eauto|].
  right; right. eexists. rewrite <- app_assoc. reflexivity.
Qed.

(** One turn of the loop of [main]: the file is opened, the loop goes on
    with the other files whatever happened, and the list of modified
    files grows exactly when the file is reported modified. *)
Lemma for_files_step (p : path) (rest acc : list path) (w : world) :
  exists acc1 fs1 tr1,
    WrapPrintsMain.for_files (p :: rest) acc w
    = WrapPrintsMain.for_files rest acc1
        (World (root w) fs1 (trace w ++ tr1)) /\
    Report.reads tr1 = [p] /\
    length acc1 = length acc + Report.modified_count tr1 /\
    Report.summary tr1 = [].
Proof.
  cbn [WrapPrintsMain.for_files]. unfold bind at 1. unfold try_except.
  unfold bind at 1.
  destruct (process_file_cases p w) as [[e E]|[E|[c E]]]; rewrite E.
  - exists acc, (files w), [Ev_read p; Ev_print (Error_processing p e)].
    unfold bind, print, log, ret. cbn [files root trace].
    rewrite <- app_assoc. repeat split. cbn. lia.
  - exists acc, (files w), [Ev_read p].
    unfold ret. repeat split. cbn. lia.
  - exists (acc ++ [p]), (update p c (files w)),
      [Ev_read p; Ev_write p c; Ev_print (Modified_rel p)].
    unfold bind, print, log, ret. cbn [files root trace].
    rewrite <- app_assoc. repeat split. rewrite length_app. cbn. lia.
Qed.

Lemma for_files_run (ps : list path) :
  forall acc w,
  exists acc' fs' tr,
    WrapPrintsMain.for_files ps acc w
    = (inr acc', World (root w) fs' (trace w ++ tr)) /\
    Report.reads tr = ps /\
    length acc' = length acc + Report.modified_count tr /\
    Report.summary tr = [].
Proof.
  induction ps as [|p rest IH]; intros acc w.
  - exists acc, (files w), []. cbn. rewrite app_nil_r.
    destruct w; repeat split. cbn. lia.
  - destruct (for_files_step p rest acc w)
      as (acc1 & fs1 & tr1 & E1 & R1 & M1 & S1).
    destruct (IH acc1 (World (root w) fs1 (trace w ++ tr1)))
      as (acc' & fs' & tr & E & R & M & S).
    exists acc', fs', (tr1 ++ tr). cbn [root trace] in E.
    rewrite E1, E, <- app_assoc.
    rewrite reads_app, modified_count_app, summary_app, R1, R, S1, S.
    repeat split. lia.
Qed.

(** C9 as the specification words it fails: a run over one file that cannot be
    read and a run over one file that needs no change end with the same
    summary, though the first has one failed file and no unmodified one
    and the second the reverse; and when the directory is missing there
    is no summary. *)
Lemma summary_counts_modified_files_only :
  let failing := trace (snd (WrapPrintsMain.main one_failing)) in
  let quiet := trace (snd (WrapPrintsMain.main one_plain)) in
  Report.summary failing = [Modified_count 0; Wrapped_estimate 0] /\
  Report.summary quiet = [Modified_count 0; Wrapped_estimate 0] /\
  Report.failed_count failing = 1 /\
  Report.unmodified_count failing = 0 /\
  Report.failed_count quiet = 0 /\
  Report.unmodified_count quiet = 1 /\
  Report.summary (trace (snd (WrapPrintsMain.main no_root))) = [].
Proof. repeat split; vm_compute; reflexivity. Qed.

(** C9, as the code has it.  In [main] of [wrap_prints.py]:
    - a file whose reading raises is reported by an error message with
      its path and the exception, and the loop goes on with the other
      files, the files and the list of modified files being as before;
    - so is a file that was read and had to be rewritten, when writing
      it raises;
    - when the directory exists the run ends normally whatever the
      files do: every listed file is opened, in order, and the last two
      messages are the summary, which gives the number of files reported
      modified and three times that number, and nothing else. *)
Theorem failing_file_does_not_stop_the_run :
  (forall p rest acc w e,
     Report.read_raises (files w) p = Some e ->
     WrapPrintsMain.for_files (p :: rest) acc w
     = WrapPrintsMain.for_files rest acc
         (World (root w) (files w)
            (trace w ++ [Ev_read p; Ev_print (Error_processing p e)]))) /\
  (forall p rest acc w f new_lines e,
     lookup p (files w) = Some f ->
     read_exn f = None ->
     WrapPrints.process_lines (readlines (text f)) = Some (new_lines, true) ->
     write_exn f = Some e ->
     WrapPrintsMain.for_files (p :: rest) acc w
     = WrapPrintsMain.for_files rest acc
         (World (root w) (files w)
            (trace w ++ [Ev_read p; Ev_print (Error_processing p e)]))) /\
  (forall w ps,
     root w = Some ps ->
     exists fs' tr m,
       WrapPrintsMain.main w
       = (inr tt,
          World (root w) fs'
            (trace w
             ++ [Ev_exists; Ev_rglob; Ev_print (Processing (length ps))]
             ++ tr
             ++ [Ev_print (Modified_count m);
                 Ev_print (Wrapped_estimate (m * 3))])) /\
       Report.reads tr = ps /\
       m = Report.modified_count tr /\
       Report.summary tr = []).
Proof.
  split; [|split].
  - intros p rest acc w e H.
    cbn [WrapPrintsMain.for_files]. unfold bind at 1. unfold try_except.
    unfold bind at 1. unfold WrapPrintsMain.process_file, bind, read_text.
    unfold Report.read_raises in H.
    destruct (lookup p (files w)) as [f|].
    + rewrite H. unfold print, log, ret. cbn [files root trace].
      now rewrite <- app_assoc.
    + injection H as <-. unfold print, log, ret. cbn [files root trace].
      now rewrite <- app_assoc.
  - intros p rest acc w f new_lines e L R P W.
    cbn [WrapPrintsMain.for_files]. unfold bind at 1. unfold try_except.
    unfold bind at 1. unfold WrapPrintsMain.process_file, bind, read_text.
    rewrite L, R, P. unfold write_text. cbn [files root trace].
    rewrite L, W. unfold print, log, ret. cbn [files root trace].
    now rewrite <- app_assoc.
  - intros w ps H.
    destruct (for_files_run ps []
                (World (root w) (files w)
                   (trace w
                    ++ [Ev_exists; Ev_rglob;
                        Ev_print (Processing (length ps))])))
      as (acc' & fs' & tr & E & R & M & S).
    exists fs', tr, (length acc'). cbn [root trace] in E.
    split; [|split; [exact R|split; [cbn in M; exact M|exact S]]].
    unfold WrapPrintsMain.main, bind, dir_exists, rglob, print, log.
    rewrite H. cbn [negb files root trace fst snd].
    rewrite <- !app_assoc. cbn [app].
    rewrite <- !app_assoc in E. cbn [app] in E. rewrite H in E.
    rewrite E. cbn [files root trace].
    now rewrite <- !app_assoc.
Qed.

Lemma failing_file_does_not_stop_the_run_witness :
  Report.read_raises (files three_files) a_swift = Some PermissionError /\
  root three_files = Some [a_swift; b_swift; c_swift] /\
  WrapPrintsMain.for_files [a_swift; b_swift; c_swift] [] three_files
  = WrapPrintsMain.for_files [b_swift; c_swift] []
      (World (root three_files) (files three_files)
         [Ev_read a_swift;
          Ev_print (Error_processing a_swift PermissionError)]) /\
  exists fs' tr m,
    WrapPrintsMain.main three_files
    = (inr tt,
       World (root three_files) fs'
         ([Ev_exists; Ev_rglob; Ev_print (Processing 3)]
          ++ tr
          ++ [Ev_print (Modified_count m);
              Ev_print (Wrapped_estimate (m * 3))])) /\
    Report.reads tr = [a_swift; b_swift; c_swift] /\
    m = Report.modified_count tr /\
    Report.summary tr = [].
Proof.
  split; [reflexivity|]. split; [reflexivity|]. split.
  - exact (proj1 failing_file_does_not_stop_the_run
             a_swift [b_swift; c_swift] [] three_files PermissionError
             eq_refl).
  - exact (proj2 (proj2 failing_file_does_not_stop_the_run)
             three_files [a_swift; b_swift; c_swift] eq_refl).
Defined.

End CommandLines.

(* ================================================================== *)
(** * Further properties of wrap_prints.py *)
(* ================================================================== *)

Section LoopOutcome.

Import WrapPrints.

Lemma blocks_length (rest b : list str) :
  length rest <= length (blocks b rest) /\
  (any_guard b rest = true -> length rest + 2 <= length (blocks b rest)).
Proof.
  revert b. induction rest as [|l a IH]; intros b.
  - split; [apply le_n|discriminate].
  - destruct (IH (l :: b)) as [IH1 IH2].
    cbn [blocks any_guard]. unfold block. rewrite length_app.
    destruct (needs_guard b l a); cbn [length orb].
    + split; [lia|intros _; lia].
    + split; [lia|]. intros H. specialize (IH2 H). lia.
Qed.

(** X1. The loop of [process_file] always ends, with no [IndexError].
    [modified] comes out [False] exactly when [new_lines] is the list
    that was read, and when it comes out [True] the new list is at least
    two lines longer; no run ever shortens the list. *)
Theorem modified_exactly_when_lines_change (lines : list str) :
  exists new_lines modified,
    process_lines lines = Some (new_lines, modified) /\
    (modified = false <-> new_lines = lines) /\
    (modified = true <-> length lines + 2 <= length new_lines) /\
    length lines <= length new_lines.
Proof.
  exists (blocks [] lines), (any_guard [] lines).
  destruct (blocks_length lines []) as [L1 L2].
  split; [apply process_lines_total|].
  destruct (any_guard [] lines) eqn:G.
  - specialize (L2 eq_refl). split; [|split; [|exact L1]].
    + split; [discriminate|]. intros E. rewrite E in L2. lia.
    + split; [intros _; exact L2|reflexivity].
  - pose proof (blocks_unchanged lines [] G) as E.
    split; [|split; [|exact L1]].
    + split; [intros _; exact E|reflexivity].
    + split; [discriminate|]. intros H. rewrite E in H. lia.
Qed.

End LoopOutcome.

Section WindowTest.

Import WrapPrints.

Lemma if_debug_loop_out_of_range (lines : list str) (n s : nat) :
  0 < n -> length lines < s + n ->
  if_debug_loop lines (seq s n) [] = None.
Proof.
  revert s. induction n as [|n IH]; intros s Hn H; [lia|].
  cbn [seq if_debug_loop].
  destruct (nth_error lines s) as [l|] eqn:E; [|reflexivity].
  assert (s < length lines) by (apply nth_error_Some; congruence).
  cbn [endif_loop].
  assert (R : if_debug_loop lines (seq (S s) n) [] = None)
    by (apply IH; lia).
  rewrite R. now destruct (contains IF_DEBUG l).
Qed.

(** X2. [is_already_wrapped(lines, index)] in full.  Inside the list it
    answers whether a line of [lines[index-5:index]] holds [#if DEBUG]
    and a line of [lines[index+1:index+5]] holds [#endif], four lines
    below at most; so the first line and the last line of a file are
    never found wrapped.  At [index = len(lines)] it answers [False], and
    beyond that it raises [IndexError]. *)
Theorem is_already_wrapped_in_full (lines : list str) (index : nat) :
  (index < length lines ->
   is_already_wrapped lines index
   = Some (existsb (contains IF_DEBUG) (slice lines (index - 5) index) &&
           existsb (contains ENDIF) (slice lines (index + 1) (index + 5))))
  /\
  (index = 0 \/ index + 1 = length lines \/ index = length lines ->
   is_already_wrapped lines index = Some false) /\
  (length lines < index -> is_already_wrapped lines index = None).
Proof.
  assert (In_range : index < length lines ->
    is_already_wrapped lines index
    = Some (existsb (contains IF_DEBUG) (slice lines (index - 5) index) &&
            existsb (contains ENDIF) (slice lines (index + 1) (index + 5)))).
  { intros H. rewrite is_already_wrapped_slices by exact H.
    now rewrite slice_clamp. }
  split; [exact In_range|]. split.
  - intros [-> | [H | ->]].
    + destruct lines as [|l lines]; [reflexivity|].
      rewrite In_range by (simpl; lia). reflexivity.
    + rewrite In_range by lia. unfold slice at 2.
      rewrite skipn_all2 by lia. rewrite firstn_nil.
      cbn [existsb]. apply f_equal, andb_false_r.
    + unfold is_already_wrapped, range.
      change (Nat.max 0 (length lines - 5)) with (length lines - 5).
      replace (Nat.min (length lines) (length lines + 5)
               - (length lines + 1)) with 0 by lia.
      cbn [seq].
      rewrite (@if_debug_loop_seq lines [] false) by (try reflexivity; lia).
      apply f_equal, andb_false_r.
  - intros H. unfold is_already_wrapped, range.
    change (Nat.max 0 (index - 5)) with (index - 5).
    replace (Nat.min (length lines) (index + 5) - (index + 1)) with 0 by lia.
    cbn [seq]. apply if_debug_loop_out_of_range; lia.
Qed.

Lemma is_already_wrapped_in_full_witness :
  is_already_wrapped Samples.long_block 1 = Some false /\
  is_already_wrapped Samples.long_block 0 = Some false /\
  is_already_wrapped Samples.long_block 7 = Some false /\
  is_already_wrapped Samples.long_block 8 = None.
Proof.
  destruct (is_already_wrapped_in_full Samples.long_block 1) as [A _].
  destruct (is_already_wrapped_in_full Samples.long_block 0) as [_ [B _]].
  destruct (is_already_wrapped_in_full Samples.long_block 7) as [_ [C _]].
  destruct (is_already_wrapped_in_full Samples.long_block 8) as [_ [_ D]].
  split; [|split; [|split]].
  - rewrite A by (vm_compute; lia). reflexivity.
  - apply B. left. reflexivity.
  - apply C. right. right. reflexivity.
  - apply D. vm_compute. lia.
Defined.

End WindowTest.

Section WithoutMarkers.

Import WrapPrints Linewise.

Lemma blocks_linewise (rest b : list str) :
  Spec.no_open_guard b = true /\ Spec.no_open_guard rest = true \/
  no_close_guard rest = true ->
  blocks b rest = flat_map wrap_line rest.
Proof.
  revert b. induction rest as [|l a IH]; intros b H; [reflexivity|].
  cbn [blocks flat_map]. f_equal.
  - unfold block, wrap_line, needs_guard, wrappable.
    assert (W : wrapped_between b a = false).
    { unfold wrapped_between. destruct H as [[Hb _]|Hc].
      - now rewrite (existsb_firstn_none _ 5 b Hb).
      - unfold no_close_guard in Hc. cbn [forallb] in Hc.
        apply andb_true_iff in Hc as [_ Hc].
        rewrite (existsb_firstn_none _ 4 a Hc). apply andb_false_r. }
    now rewrite W.
  - apply IH. destruct H as [[Hb Hr]|Hc].
    + left. unfold Spec.no_open_guard in *. cbn [forallb] in *.
      apply andb_true_iff in Hr as [Hl Ha]. now rewrite Hl, Hb, Ha.
    + right. unfold no_close_guard in *. cbn [forallb] in Hc.
      now apply andb_true_iff in Hc as [_ Hc].
Qed.

(** X3. When no line of the file holds [#if DEBUG], or no line holds
    [#endif], the output is made line by line: every diagnostic without
    an exemption pattern stands between its own two guard lines, whatever
    its neighbours are, and every other line is copied.  Diagnostics
    that follow one another are wrapped one by one. *)
Theorem marker_free_input_is_wrapped_line_by_line (lines : list str) :
  Spec.no_open_guard lines = true \/ no_close_guard lines = true ->
  transform lines = flat_map wrap_line lines /\
  length (transform lines) = length lines + 2 * wrappable_count lines.
Proof.
  intros H.
  assert (E : transform lines = flat_map wrap_line lines).
  { rewrite transform_blocks. apply blocks_linewise.
    destruct H as [H|H]; [left; now split|now right]. }
  split; [exact E|]. rewrite E. clear.
  unfold wrappable_count.
  induction lines as [|l a IH]; [reflexivity|].
  cbn [flat_map filter]. rewrite length_app, IH. unfold wrap_line.
  destruct (wrappable l); cbn [length]; lia.
Qed.

Lemma marker_free_input_is_wrapped_line_by_line_witness :
  Spec.no_open_guard Samples.mixed = true /\
  transform Samples.mixed = flat_map wrap_line Samples.mixed /\
  length (transform Samples.mixed) = 8.
Proof.
  split; [reflexivity|].
  destruct (@marker_free_input_is_wrapped_line_by_line Samples.mixed
              (or_introl eq_refl)) as [E L].
  split; [exact E|]. rewrite L. reflexivity.
Defined.

End WithoutMarkers.

Section RepeatedRuns.

Import WrapPrints Linewise.

Lemma wrapped_copy_refl (xs : list str) : wrapped_copy xs xs.
Proof. induction xs; constructor; assumption. Qed.

(** A run over a wrapped copy gives a wrapped copy: the lines already
    between their guards stay as they are, the others may be wrapped. *)
Lemma blocks_wrapped_copy (xs ys : list str) :
  wrapped_copy xs ys -> forall b, wrapped_copy xs (blocks b ys).
Proof.
  induction 1 as [|x xs ys _ IH|x xs ys Hx _ IH]; intros b.
  - constructor.
  - cbn [blocks]. unfold block.
    destruct (needs_guard b x ys) eqn:G; cbn [app].
    + apply wc_wrap; [|apply IH].
      unfold needs_guard in G. unfold wrappable.
      apply andb_true_iff in G as [P G]. rewrite P. cbn [andb].
      apply negb_true_iff in G. apply orb_false_iff in G as [_ K].
      now rewrite K.
    + apply wc_keep, IH.
  - cbn [blocks]. unfold block. unfold needs_guard at 1 3.
    rewrite open_guard_not_print, close_guard_not_print. cbn [andb app].
    unfold needs_guard, wrapped_between. cbn [firstn existsb].
    rewrite open_guard_if_debug, close_guard_endif.
    cbn [orb andb negb]. rewrite andb_false_r. cbn [app].
    apply wc_wrap; [exact Hx|apply IH].
Qed.

Lemma wrapped_copy_length (xs ys : list str) :
  wrapped_copy xs ys ->
  length ys <= length xs + 2 * wrappable_count xs.
Proof.
  unfold wrappable_count.
  induction 1 as [|x xs ys _ IH|x xs ys Hx _ IH]; cbn [length filter].
  - lia.
  - destruct (wrappable x); cbn [length]; lia.
  - rewrite Hx. cbn [length]. lia.
Qed.

Lemma iter_wrapped_copy (n : nat) (lines : list str) :
  wrapped_copy lines (Nat.iter n transform lines).
Proof.
  induction n as [|n IH]; [apply wrapped_copy_refl|].
  change (Nat.iter (S n) transform lines)
    with (transform (Nat.iter n transform lines)).
  rewrite transform_blocks. now apply blocks_wrapped_copy.
Qed.

(** X4. However often the file is run through [process_file], the tool
    never puts a second guard pair of its own around a line: the result
    of [n] runs is the first input where some diagnostics without an
    exemption pattern stand between the two guard lines made for them,
    and nothing else is changed.  So the file never grows by more than
    two lines for each such diagnostic of the first input. *)
Theorem runs_wrap_each_line_at_most_once (n : nat) (lines : list str) :
  wrapped_copy lines (Nat.iter n transform lines) /\
  length (Nat.iter n transform lines)
  <= length lines + 2 * wrappable_count lines.
Proof.
  split; [apply iter_wrapped_copy|].
  apply wrapped_copy_length, iter_wrapped_copy.
Qed.

Lemma transform_grows (lines : list str) :
  transform lines = lines \/ length lines + 2 <= length (transform lines).
Proof.
  rewrite transform_blocks.
  destruct (any_guard [] lines) eqn:G.
  - right. now apply blocks_length.
  - left. now apply blocks_unchanged.
Qed.

Lemma iter_settles_or_grows (lines : list str) (j : nat) :
  Nat.iter (S j) transform lines = Nat.iter j transform lines \/
  length lines + 2 * S j <= length (Nat.iter (S j) transform lines).
Proof.
  induction j as [|j IH].
  - cbn [Nat.iter nat_rect].
    destruct (transform_grows lines) as [E|L]; [now left|right; lia].
  - change (Nat.iter (S (S j)) transform lines)
      with (transform (Nat.iter (S j) transform lines)).
    destruct IH as [E|L].
    + left. rewrite E at 1. reflexivity.
    + destruct (transform_grows (Nat.iter (S j) transform lines))
        as [E'|L']; [now left|right; lia].
Qed.

(** X5. Repeated runs come to rest: with [k] the number of diagnostics
    without an exemption pattern in the first input, run [k + 1] changes
    nothing any more, and neither does any later run. *)
Theorem runs_settle (lines : list str) (m : nat) :
  wrappable_count lines <= m ->
  Nat.iter (S m) transform lines = Nat.iter m transform lines.
Proof.
  intros H.
  destruct (iter_settles_or_grows lines m) as [E|L]; [exact E|].
  pose proof (wrapped_copy_length (iter_wrapped_copy (S m) lines)).
  lia.
Qed.

Lemma runs_settle_witness :
  wrappable_count Samples.debug_block <= 2 /\
  Nat.iter 3 transform Samples.debug_block
  = Nat.iter 2 transform Samples.debug_block.
Proof.
  split; [vm_compute; lia|].
  apply runs_settle. vm_compute. lia.
Defined.

End RepeatedRuns.

(* ================================================================== *)
(** * Further properties of the command line of wrap_prints.py *)
(* ================================================================== *)

Section FileRewrite.

Import WrapPrints.

(** Reading a text with [readlines] and writing the lines back with
    [writelines] gives the text again. *)
Lemma readlines_from_concat (text cur : str) :
  concat (readlines_from cur text) = rev cur ++ text.
Proof.
  revert cur. induction text as [|c text IH]; intros cur.
  - cbn [readlines_from]. destruct cur; [reflexivity|].
    cbn [concat]. now rewrite !app_nil_r.
  - cbn [readlines_from]. destruct (N.eqb c NEWLINE).
    + cbn [concat]. rewrite IH. cbn [rev app]. now rewrite <- app_assoc.
    + rewrite IH. cbn [rev]. now rewrite <- app_assoc.
Qed.

Lemma writelines_readlines (text : str) : writelines (readlines text) = text.
Proof. exact (readlines_from_concat text []). Qed.

Lemma str_eqb_eq (a b : str) : str_eqb a b = true <-> a = b.
Proof.
  revert b. induction a as [|x a IH]; intros [|y b]; cbn [str_eqb];
    try (split; [discriminate|discriminate]); [split; reflexivity|].
  rewrite andb_true_iff, N.eqb_eq, IH.
  split; [intros [-> ->]; reflexivity|intros E; injection E; auto].
Qed.

Lemma blocks_text_grows (rest b : list str) :
  any_guard b rest = true ->
  length (concat rest) < length (concat (blocks b rest)).
Proof.
  assert (Le : forall rest b,
             length (concat rest) <= length (concat (blocks b rest))).
  { clear. induction rest as [|l a IH]; intros b; [apply le_n|].
    cbn [blocks concat]. rewrite concat_app, !length_app.
    specialize (IH (l :: b)). unfold block.
    destruct (needs_guard b l a); cbn [concat]; rewrite ?length_app;
      cbn [length]; unfold str, char in *; lia. }
  revert b. induction rest as [|l a IH]; intros b H; [discriminate|].
  cbn [any_guard] in H. cbn [blocks concat].
  rewrite concat_app, !length_app. unfold block.
  destruct (needs_guard b l a).
  - specialize (Le a (l :: b)). cbn [concat]. rewrite !length_app.
    unfold open_guard. rewrite !length_app. cbn [length].
    unfold str, char in *. lia.
  - cbn [orb] in H. specialize (IH (l :: b) H).
    cbn [concat]. rewrite app_nil_r. unfold str, char in *. lia.
Qed.

(** X6. [process_file] on a file that can be read and written opens it
    for writing exactly when the rewritten text differs from the text it
    read; then the file holds the rewritten text and the result is
    [True].  When the text would be the same the file is only read, the
    files are as before and the result is [False]. *)
Theorem process_file_writes_only_a_changed_text
    (p : path) (w : world) (f : file) :
  lookup p (files w) = Some f ->
  read_exn f = None ->
  write_exn f = None ->
  let new_text := writelines (transform (readlines (text f))) in
  WrapPrintsMain.process_file p w
  = if str_eqb new_text (text f)
    then (inr false, World (root w) (files w) (trace w ++ [Ev_read p]))
    else (inr true,
          World (root w) (update p new_text (files w))
                (trace w ++ [Ev_read p; Ev_write p new_text])).
Proof.
  intros L R W new_text.
  unfold WrapPrintsMain.process_file, bind, read_text.
  rewrite L, R, process_lines_total.
  assert (T : new_text = writelines (blocks [] (readlines (text f))))
    by (unfold new_text; now rewrite transform_blocks).
  destruct (any_guard [] (readlines (text f))) eqn:G.
  - assert (N : str_eqb new_text (text f) = false).
    { destruct (str_eqb new_text (text f)) eqn:E; [|reflexivity].
      apply str_eqb_eq in E.
      pose proof (blocks_text_grows _ _ G) as Lt.
      fold (writelines (readlines (text f))) in Lt.
      fold (writelines (blocks [] (readlines (text f)))) in Lt.
      rewrite <- T, E, writelines_readlines in Lt. lia. }
    rewrite N. unfold write_text, ret. cbn [files root trace].
    rewrite L, W, <- T, <- app_assoc. reflexivity.
  - assert (N : str_eqb new_text (text f) = true).
    { apply str_eqb_eq. rewrite T, (blocks_unchanged _ _ G).
      apply writelines_readlines. }
    rewrite N. reflexivity.
Qed.

Lemma process_file_writes_only_a_changed_text_witness :
  WrapPrintsMain.process_file SampleWorlds.a_swift SampleWorlds.one_plain
  = (inr false,
     World (root SampleWorlds.one_plain) (files SampleWorlds.one_plain)
           [Ev_read SampleWorlds.a_swift]).
Proof.
  exact (@process_file_writes_only_a_changed_text
           SampleWorlds.a_swift SampleWorlds.one_plain SampleWorlds.plain
           eq_refl eq_refl eq_refl).
Defined.

(** X7. Nothing of the text read is lost or altered: the lines of the
    output that were taken from the input, written one after the other,
    are the text of the file, character for character; the output is
    these lines and the guard lines made up by the loop. *)
Theorem written_text_keeps_every_character (text : str) :
  map snd (marked_transform (readlines text)) = transform (readlines text) /\
  writelines (map snd (filter (fun x => negb (fst x))
                         (marked_transform (readlines text))))
  = text /\
  writelines (readlines text) = text.
Proof.
  split; [|split; [|apply writelines_readlines]].
  - unfold marked_transform. rewrite transform_blocks.
    apply marked_blocks_lines.
  - rewrite <- (writelines_readlines text) at 2. f_equal.
    unfold marked_transform.
    rewrite <- (filter_true (readlines text)) at 2.
    rewrite <- (marked_blocks_input (readlines text) [] (fun _ => true)).
    f_equal. apply filter_ext. intros x. now rewrite andb_true_r.
Qed.

End FileRewrite.

Section RunEffects.

Import Effects.

Lemma written_app (t1 t2 : list event) :
  written (t1 ++ t2) = written t1 ++ written t2.
Proof.
  induction t1 as [|ev t1 IH]; [reflexivity|].
  destruct ev; cbn [app written]; now rewrite IH.
Qed.

Lemma reported_modified_app (m1 m2 : list message) :
  reported_modified (m1 ++ m2)
  = reported_modified m1 ++ reported_modified m2.
Proof.
  induction m1 as [|m m1 IH]; [reflexivity|].
  destruct m; cbn [app reported_modified]; now rewrite IH.
Qed.

Lemma reported_modified_swift_app (m1 m2 : list message) :
  reported_modified_swift (m1 ++ m2)
  = reported_modified_swift m1 ++ reported_modified_swift m2.
Proof.
  induction m1 as [|m m1 IH]; [reflexivity|].
  destruct m; cbn [app reported_modified_swift]; now rewrite IH.
Qed.

Lemma lookup_update_other (q p : path) (c : str) (fs : list (path * file)) :
  str_eqb q p = false -> lookup q (update p c fs) = lookup q fs.
Proof.
  intros N. induction fs as [|[r f] fs IH]; [reflexivity|].
  cbn [update]. destruct (str_eqb p r) eqn:E; cbn [lookup].
  - apply str_eqb_eq in E. subst r. now rewrite N.
  - now rewrite IH.
Qed.

Lemma not_among_cons (q p : path) (ps : list path) :
  not_among q (p :: ps) = true ->
  str_eqb q p = false /\ not_among q ps = true.
Proof.
  unfold not_among. cbn [forallb]. intros H.
  apply andb_true_iff in H as [H1 H2].
  now apply negb_true_iff in H1.
Qed.

(** The loop of [main] in [wrap_prints.py], with what it does to the
    files and what it reports. *)
Lemma for_files_effects (ps : list path) :
  forall acc w,
  exists acc' fs' tr,
    WrapPrintsMain.for_files ps acc w
    = (inr acc', World (root w) fs' (trace w ++ tr)) /\
    acc' = acc ++ written tr /\
    reported_modified (Report.printed tr) = written tr /\
    (forall q, not_among q ps = true -> lookup q fs' = lookup q (files w)) /\
    (forall q, In q (written tr) -> In q ps).
Proof.
  induction ps as [|p rest IH]; intros acc w.
  - exists acc, (files w), []. cbn. rewrite !app_nil_r.
    destruct w; repeat split; auto.
  - cbn [WrapPrintsMain.for_files]. unfold bind at 1. unfold try_except.
    unfold bind at 1.
    destruct (process_file_cases p w) as [[e E]|[E|[c E]]]; rewrite E.
    + unfold bind at 1. unfold print, log, ret. cbn [files root trace].
      destruct (IH acc
                  (World (root w) (files w)
                     ((trace w ++ [Ev_read p])
                      ++ [Ev_print (Error_processing p e)])))
        as (acc' & fs' & tr & R & A & M & F & I).
      cbn [files root trace] in R, F.
      exists acc', fs', ([Ev_read p; Ev_print (Error_processing p e)] ++ tr).
      rewrite R, <- !app_assoc. cbn [app].
      split; [reflexivity|]. split; [exact A|]. split; [exact M|].
      split; [|intros q Hq; right; now apply I].
      intros q Hq. apply F. now apply not_among_cons in Hq.
    + unfold ret.
      destruct (IH acc (World (root w) (files w) (trace w ++ [Ev_read p])))
        as (acc' & fs' & tr & R & A & M & F & I).
      cbn [files root trace] in R, F.
      exists acc', fs', ([Ev_read p] ++ tr).
      rewrite R, <- !app_assoc. cbn [app].
      split; [reflexivity|]. split; [exact A|]. split; [exact M|].
      split; [|intros q Hq; right; now apply I].
      intros q Hq. apply F. now apply not_among_cons in Hq.
    + unfold bind at 1. unfold print, log, ret. cbn [files root trace].
      destruct (IH (acc ++ [p])
                  (World (root w) (update p c (files w))
                     ((trace w ++ [Ev_read p; Ev_write p c])
                      ++ [Ev_print (Modified_rel p)])))
        as (acc' & fs' & tr & R & A & M & F & I).
      cbn [files root trace] in R, F.
      exists acc', fs',
        ([Ev_read p; Ev_write p c; Ev_print (Modified_rel p)] ++ tr).
      rewrite R, <- !app_assoc. cbn [app written Report.printed
                                      reported_modified].
      split; [reflexivity|].
      split; [rewrite A, <- app_assoc; reflexivity|].
      split; [now rewrite M|].
      split.
      * intros q Hq. apply not_among_cons in Hq as [Hp Hr].
        rewrite (F q Hr). now apply lookup_update_other.
      * intros q [<-|Hq]; [now left|right; now apply I].
Qed.

(** The three ways [process_swift_file] ends. *)
Lemma process_swift_file_cases (p : path) (w : world) :
  (exists e,
     WrapDebugPrintsMain.process_swift_file p w
     = (inl e, World (root w) (files w) (trace w ++ [Ev_read p]))) \/
  WrapDebugPrintsMain.process_swift_file p w
  = (inr false, World (root w) (files w) (trace w ++ [Ev_read p])) \/
  (exists c,
     WrapDebugPrintsMain.process_swift_file p w
     = (inr true,
        World (root w) (update p c (files w))
              (trace w ++ [Ev_read p; Ev_write p c]))).
Proof.
  unfold WrapDebugPrintsMain.process_swift_file, bind, read_text.
  destruct (lookup p (files w)) as [f|] eqn:L; [|left; eauto].
  destruct (read_exn f) as [e|]; [left; eauto|].
  unfold WrapDebugPrints.new_content.
  rewrite swift_process_lines_total.
  destruct (negb (str_eqb _ (text f))); [|right; left; reflexivity].
  unfold write_text, ret. cbn [files root trace]. rewrite L.
  destruct (write_exn f) as [e|]; [left; eauto|].
  right; right. eexists. rewrite <- app_assoc. reflexivity.
Qed.

(** The loop of [main] in [wrap_debug_prints.py]: it may stop on an
    exception. *)
Lemma swift_for_files_effects (ps : list path) :
  forall n w,
  exists r fs' tr,
    WrapDebugPrintsMain.for_files ps n w
    = (r, World (root w) fs' (trace w ++ tr)) /\
    (forall n', r = inr n' -> n' = n + length (written tr)) /\
    reported_modified_swift (Report.printed tr) = written tr /\
    (forall q, not_among q ps = true -> lookup q fs' = lookup q (files w)) /\
    (forall q, In q (written tr) -> In q ps).
Proof.
  induction ps as [|p rest IH]; intros n w.
  - exists (inr n), (files w), []. cbn. rewrite !app_nil_r.
    destruct w; repeat split; auto.
    intros n' E. injection E as <-. lia.
  - cbn [WrapDebugPrintsMain.for_files]. unfold bind at 1.
    destruct (process_swift_file_cases p w) as [[e E]|[E|[c E]]]; rewrite E.
    + exists (inl e), (files w), [Ev_read p].
      split; [reflexivity|]. split; [discriminate|].
      split; [reflexivity|]. split; [reflexivity|]. intros q [].
    + destruct (IH n (World (root w) (files w) (trace w ++ [Ev_read p])))
        as (r & fs' & tr & R & A & M & F & I).
      cbn [files root trace] in R, F.
      exists r, fs', ([Ev_read p] ++ tr).
      rewrite R, <- !app_assoc. cbn [app].
      split; [reflexivity|]. split; [exact A|]. split; [exact M|].
      split; [|intros q Hq; right; now apply I].
      intros q Hq. apply F. now apply not_among_cons in Hq.
    + unfold bind at 1. unfold print, log. cbn [files root trace].
      destruct (IH (n + 1)
                  (World (root w) (update p c (files w))
                     ((trace w ++ [Ev_read p; Ev_write p c])
                      ++ [Ev_print (Modified_path p)])))
        as (r & fs' & tr & R & A & M & F & I).
      cbn [files root trace] in R, F.
      exists r, fs',
        ([Ev_read p; Ev_write p c; Ev_print (Modified_path p)] ++ tr).
      rewrite R, <- !app_assoc. cbn [app written Report.printed
                                      reported_modified_swift length].
      split; [reflexivity|].
      split; [intros n' En; rewrite (A n' En); lia|].
      split; [now rewrite M|].
      split.
      * intros q Hq. apply not_among_cons in Hq as [Hp Hr].
        rewrite (F q Hr). now apply lookup_update_other.
      * intros q [<-|Hq]; [now left|right; now apply I].
Qed.

(** X8. A run of either script leaves every file alone that [rglob]
    does not list, whatever the file holds and whatever happens to the
    files that are listed. *)
Theorem unlisted_files_are_left_alone (w : world) (q : path) :
  not_among q (listed w) = true ->
  lookup q (files (snd (WrapPrintsMain.main w))) = lookup q (files w) /\
  lookup q (files (snd (WrapDebugPrintsMain.main w))) = lookup q (files w).
Proof.
  unfold listed. intros H.
  unfold WrapPrintsMain.main, WrapDebugPrintsMain.main.
  unfold bind, dir_exists, rglob, print, log.
  destruct (root w) as [ps|] eqn:R; cbn [negb files root trace fst snd];
    [|split; reflexivity].
  split.
  - destruct (for_files_effects ps []
                (World (Some ps) (files w)
                   (((trace w ++ [Ev_exists]) ++ [Ev_rglob])
                    ++ [Ev_print (Processing (length ps))])))
      as (acc' & fs' & tr & E & _ & _ & F & _).
    cbn [files root trace] in E, F. rewrite E.
    cbn [files snd]. now apply F.
  - destruct (swift_for_files_effects ps 0
                (World (Some ps) (files w)
                   ((((trace w ++ [Ev_exists]) ++ [Ev_rglob])
                     ++ [Ev_print (Found (length ps))])
                    ++ [Ev_print Wrapping])))
      as (r & fs' & tr & E & _ & _ & F & _).
    cbn [files root trace] in E, F. rewrite E.
    destruct r; cbn [files snd]; now apply F.
Qed.

Lemma unlisted_files_are_left_alone_witness :
  not_among SampleWorlds.b_swift (listed one_listed) = true /\
  lookup SampleWorlds.b_swift (files (snd (WrapPrintsMain.main one_listed)))
  = Some SampleWorlds.to_wrap.
Proof.
  split; [reflexivity|].
  exact (proj1 (@unlisted_files_are_left_alone one_listed
                  SampleWorlds.b_swift eq_refl)).
Defined.

(** X9. In a run of [wrap_prints.py] over an existing directory, the
    files reported as modified are exactly the files that were written,
    in the same order; the number in the summary is the number of files
    written; and only listed files are written. *)
Theorem report_tells_the_files_written (w : world) (ps : list path) :
  root w = Some ps ->
  exists fs' tr,
    WrapPrintsMain.main w
    = (inr tt,
       World (root w) fs'
         (trace w
          ++ [Ev_exists; Ev_rglob; Ev_print (Processing (length ps))]
          ++ tr
          ++ [Ev_print (Modified_count (length (written tr)));
              Ev_print (Wrapped_estimate (length (written tr) * 3))])) /\
    reported_modified (Report.printed tr) = written tr /\
    (forall q, In q (written tr) -> In q ps).
Proof.
  intros H.
  destruct (for_files_effects ps []
              (World (root w) (files w)
                 (trace w
                  ++ [Ev_exists; Ev_rglob;
                      Ev_print (Processing (length ps))])))
    as (acc' & fs' & tr & E & A & M & _ & I).
  exists fs', tr. cbn [root trace app] in E, A.
  split; [|split; [exact M|exact I]].
  unfold WrapPrintsMain.main, bind, dir_exists, rglob, print, log.
  rewrite H. cbn [negb files root trace fst snd].
  rewrite <- !app_assoc. cbn [app].
  rewrite <- !app_assoc in E. cbn [app] in E. rewrite H in E.
  rewrite E. cbn [files root trace]. subst acc'.
  now rewrite <- !app_assoc.
Qed.

Lemma report_tells_the_files_written_witness :
  root SampleWorlds.three_files
  = Some [SampleWorlds.a_swift; SampleWorlds.b_swift; SampleWorlds.c_swift]
  /\
  written (trace (snd (WrapPrintsMain.main SampleWorlds.three_files)))
  = [SampleWorlds.b_swift] /\
  exists fs' tr,
    WrapPrintsMain.main SampleWorlds.three_files
    = (inr tt,
       World (root SampleWorlds.three_files) fs'
         ([Ev_exists; Ev_rglob; Ev_print (Processing 3)]
          ++ tr
          ++ [Ev_print (Modified_count (length (written tr)));
              Ev_print (Wrapped_estimate (length (written tr) * 3))])) /\
    reported_modified (Report.printed tr) = written tr /\
    (forall q, In q (written tr) ->
       In q [SampleWorlds.a_swift; SampleWorlds.b_swift;
             SampleWorlds.c_swift]).
Proof.
  split; [reflexivity|]. split; [vm_compute; reflexivity|].
  exact (@report_tells_the_files_written SampleWorlds.three_files _ eq_refl).
Defined.

(** X10. [main] of [wrap_debug_prints.py] catches nothing: when a file
    cannot be read the loop stops there with the exception, the files
    after it are not opened, and neither a line for them nor the closing
    line of the run is printed. *)
Theorem swift_run_stops_at_a_failing_file
    (p : path) (rest : list path) (e : exn) :
  (forall n w,
     Report.read_raises (files w) p = Some e ->
     WrapDebugPrintsMain.for_files (p :: rest) n w
     = (inl e, World (root w) (files w) (trace w ++ [Ev_read p]))) /\
  (forall w,
     root w = Some (p :: rest) ->
     Report.read_raises (files w) p = Some e ->
     WrapDebugPrintsMain.main w
     = (inl e,
        World (root w) (files w)
          (trace w
           ++ [Ev_exists; Ev_rglob; Ev_print (Found (S (length rest)));
               Ev_print Wrapping; Ev_read p]))).
Proof.
  assert (P : forall w, Report.read_raises (files w) p = Some e ->
            WrapDebugPrintsMain.process_swift_file p w
            = (inl e, World (root w) (files w) (trace w ++ [Ev_read p]))).
  { intros w H. unfold WrapDebugPrintsMain.process_swift_file, bind, read_text.
    unfold Report.read_raises in H.
    destruct (lookup p (files w)) as [f|]; [now rewrite H|].
    now injection H as <-. }
  split.
  - intros n w H. cbn [WrapDebugPrintsMain.for_files]. unfold bind at 1.
    now rewrite (P w H).
  - intros w R H.
    unfold WrapDebugPrintsMain.main, bind, dir_exists, rglob, print, log.
    rewrite R. cbn [negb files root trace fst snd length].
    cbn [WrapDebugPrintsMain.for_files]. unfold bind at 1.
    rewrite P by exact H. cbn [files root trace].
    now rewrite <- !app_assoc.
Qed.

Lemma swift_run_stops_at_a_failing_file_witness :
  Report.read_raises (files SampleWorlds.three_files) SampleWorlds.a_swift
  = Some PermissionError /\
  WrapDebugPrintsMain.main SampleWorlds.three_files
  = (inl PermissionError,
     World (root SampleWorlds.three_files) (files SampleWorlds.three_files)
       [Ev_exists; Ev_rglob; Ev_print (Found 3); Ev_print Wrapping;
        Ev_read SampleWorlds.a_swift]).
Proof.
  split; [reflexivity|].
  exact (proj2 (@swift_run_stops_at_a_failing_file SampleWorlds.a_swift
                  [SampleWorlds.b_swift; SampleWorlds.c_swift]
                  PermissionError)
           SampleWorlds.three_files eq_refl eq_refl).
Defined.

End RunEffects.

(* ================================================================== *)
(** * Further properties of wrap_debug_prints.py *)
(* ================================================================== *)

Section SwiftLines.

Import WrapDebugPrints SwiftViews.

Lemma swift_blocks_app (pre post b : list str) :
  blocks b (pre ++ post) = blocks b pre ++ blocks (rev pre ++ b) post.
Proof.
  revert b. induction pre as [|x pre IH]; intros b.
  - cbn [app blocks rev]. reflexivity.
  - cbn [app blocks rev]. rewrite IH, <- !app_assoc. reflexivity.
Qed.

(** X11. [process_swift_file] decides every line from the line right
    above it and from nothing else.  What it writes for the first lines
    of a file does not depend on the lines that follow; a diagnostic is
    put between guard lines exactly when it is the first line or the
    line above it does not hold [#if DEBUG]; exemption patterns play no
    part, so a diagnostic alone in a file is always wrapped. *)
Theorem swift_decides_by_the_line_above (pre post : list str) (l : str) :
  transform (pre ++ post) = transform pre ++ blocks (rev pre) post /\
  transform (pre ++ l :: post)
  = transform pre
    ++ (if is_print_statement l && negb (below_if_debug (rev pre))
        then [open_guard l; l; close_guard l]
        else [l])
    ++ blocks (l :: rev pre) post /\
  (is_print_statement l = true ->
   transform [l] = [open_guard l; l; close_guard l]).
Proof.
  rewrite !swift_transform_blocks, !swift_blocks_app, app_nil_r.
  split; [reflexivity|]. split; [reflexivity|].
  intros P. cbn [blocks]. unfold block, needs_guard. now rewrite P.
Qed.

Lemma swift_decides_by_the_line_above_witness :
  is_print_statement Samples.critical = true /\
  WrapPrints.should_keep_in_production Samples.critical = true /\
  WrapPrints.transform [Samples.critical] = [Samples.critical] /\
  transform [Samples.critical]
  = [open_guard Samples.critical; Samples.critical;
     close_guard Samples.critical].
Proof.
  split; [reflexivity|]. split; [reflexivity|].
  split; [vm_compute; reflexivity|].
  exact (proj2 (proj2 (swift_decides_by_the_line_above [] []
                         Samples.critical)) eq_refl).
Defined.

Lemma swift_open_guard_is_guard_line (l : str) : guard_line (open_guard l).
Proof. exists (indent_of l). left. reflexivity. Qed.

Lemma swift_close_guard_is_guard_line (l : str) : guard_line (close_guard l).
Proof. exists (indent_of l). right. reflexivity. Qed.

(** X12. [process_swift_file] keeps every line of the file, untouched
    and in order, and adds nothing but guard lines; the diagnostic lines
    of the output are those of the input. *)
Theorem swift_only_inserts_guard_lines (lines : list str) :
  inserts_only lines (transform lines) /\
  filter is_print_statement (transform lines)
  = filter is_print_statement lines.
Proof.
  rewrite swift_transform_blocks. generalize (@nil str) as b.
  induction lines as [|l a IH]; intros b; [split; [constructor|reflexivity]|].
  destruct (IH (l :: b)) as [I F].
  cbn [blocks]. unfold block. destruct (needs_guard b l); cbn [app filter].
  - rewrite swift_open_guard_not_print, swift_close_guard_not_print, F.
    split; [|reflexivity].
    apply ins_guard; [apply swift_open_guard_is_guard_line|].
    apply ins_keep.
    apply ins_guard; [apply swift_close_guard_is_guard_line|exact I].
  - rewrite F. split; [now apply ins_keep|reflexivity].
Qed.

Lemma swift_blocks_settled (rest : list str) :
  forall b b',
    below_if_debug b = below_if_debug b' ->
    print_mentions_guard rest = false ->
    blocks b' (blocks b rest) = blocks b rest.
Proof.
  induction rest as [|l a IH]; intros b b' Inv N; [reflexivity|].
  unfold print_mentions_guard in N. cbn [existsb] in N.
  apply orb_false_iff in N as [Nl Na].
  cbn [blocks]. unfold block.
  assert (G : needs_guard b' l = needs_guard b l).
  { unfold needs_guard. fold (below_if_debug b) (below_if_debug b').
    now rewrite Inv. }
  destruct (needs_guard b l) eqn:Gb; cbn [app blocks]; unfold block.
  - assert (P : is_print_statement l = true)
      by (unfold needs_guard in Gb; now apply andb_true_iff in Gb).
    rewrite P in Nl. cbn [andb] in Nl.
    unfold needs_guard.
    rewrite swift_open_guard_not_print, swift_close_guard_not_print,
      swift_open_guard_if_debug.
    cbn [andb negb app]. rewrite andb_false_r. cbn [app].
    do 3 f_equal. apply IH; [|exact Na].
    cbn [below_if_debug]. rewrite Nl.
    symmetry. apply swift_close_guard_markers.
  - rewrite G. cbn [app]. f_equal. apply IH; [reflexivity|exact Na].
Qed.

Lemma swift_second_run_changes_nothing_helper (lines : list str) :
  print_mentions_guard lines = false ->
  transform (transform lines) = transform lines.
Proof.
  intros N. rewrite !swift_transform_blocks.
  now apply swift_blocks_settled.
Qed.

(** X13. When no diagnostic line of the file itself holds [#if DEBUG],
    a second run of [process_swift_file] changes nothing, whatever
    guards the file had before the first run. *)
Theorem swift_second_run_changes_nothing (lines : list str) :
  print_mentions_guard lines = false ->
  transform (transform lines) = transform lines.
Proof.
  intros N. rewrite !swift_transform_blocks.
  apply swift_blocks_settled; [reflexivity|exact N].
Qed.

Lemma swift_second_run_changes_nothing_witness :
  print_mentions_guard Samples.spaced_block = false /\
  transform (transform Samples.spaced_block)
  = transform Samples.spaced_block.
Proof.
  split; [reflexivity|].
  apply swift_second_run_changes_nothing. reflexivity.
Defined.

End SwiftLines.

Section SwiftText.

Import WrapDebugPrints SwiftViews.

Lemma split_from_cons (text cur : str) :
  exists x xs, split_from cur text = x :: xs.
Proof.
  revert cur. induction text as [|c text IH]; intros cur; cbn [split_from].
  - eauto.
  - destruct (N.eqb c NEWLINE); [eauto|apply IH].
Qed.

(** Splitting a text at its newlines and joining the pieces with
    newlines gives the text again. *)
Lemma join_split_from (text cur : str) :
  join_newline (split_from cur text) = rev cur ++ text.
Proof.
  revert cur. induction text as [|c text IH]; intros cur; cbn [split_from].
  - cbn [join_newline]. now rewrite app_nil_r.
  - destruct (N.eqb c NEWLINE) eqn:E.
    + apply N.eqb_eq in E. subst c.
      destruct (split_from_cons text []) as (x & xs & S).
      specialize (IH []). rewrite S in IH |- *.
      cbn [join_newline]. cbn [join_newline] in IH.
      now rewrite IH.
    + rewrite IH. cbn [rev]. now rewrite <- app_assoc.
Qed.

Lemma join_split (text : str) : join_newline (split_newline text) = text.
Proof. exact (join_split_from text []). Qed.

Lemma join_weight (l : str) (ls : list str) :
  S (length (join_newline (l :: ls))) = weight (l :: ls).
Proof.
  revert l. induction ls as [|m ls IH]; intros l.
  - cbn [join_newline weight]. lia.
  - specialize (IH m). cbn [join_newline weight] in IH |- *.
    rewrite length_app. cbn [length]. unfold str, char in *. lia.
Qed.

Lemma swift_blocks_weight (rest b : list str) :
  weight rest <= weight (blocks b rest) /\
  (any_guard b rest = true -> weight rest < weight (blocks b rest)).
Proof.
  assert (A : forall xs ys, weight (xs ++ ys) = weight xs + weight ys).
  { induction xs as [|x xs IH]; intros ys; cbn [app weight];
      [reflexivity|rewrite IH; lia]. }
  revert b. induction rest as [|l a IH]; intros b.
  - split; [apply le_n|discriminate].
  - destruct (IH (l :: b)) as [IH1 IH2].
    cbn [blocks any_guard]. rewrite A. unfold block.
    destruct (needs_guard b l); cbn [weight orb].
    + split; [lia|intros _; lia].
    + split; [lia|]. intros H. specialize (IH2 H). lia.
Qed.

Lemma swift_blocks_unchanged (rest b : list str) :
  any_guard b rest = false -> blocks b rest = rest.
Proof.
  revert b. induction rest as [|l a IH]; intros b H; [reflexivity|].
  cbn [any_guard] in H. apply orb_false_iff in H as [H1 H2].
  cbn [blocks]. unfold block. rewrite H1. cbn [app]. f_equal. now apply IH.
Qed.

Lemma swift_blocks_cons (l : str) (a b : list str) :
  exists x xs, blocks b (l :: a) = x :: xs.
Proof.
  cbn [blocks]. unfold block. destruct (needs_guard b l); cbn [app]; eauto.
Qed.

(** X14. [process_swift_file] on a file that can be read and written
    rewrites it exactly when some diagnostic line is the first line or
    has no [#if DEBUG] on the line above it; the file then holds the
    output lines joined by newlines.  Otherwise the new content is the
    old one character for character, the file is only read, and the
    result is [False]. *)
Theorem process_swift_file_writes_only_new_guards
    (p : path) (w : world) (f : file) :
  lookup p (files w) = Some f ->
  read_exn f = None ->
  write_exn f = None ->
  let new_text := join_newline (transform (split_newline (text f))) in
  WrapDebugPrintsMain.process_swift_file p w
  = if any_guard [] (split_newline (text f))
    then (inr true,
          World (root w) (update p new_text (files w))
                (trace w ++ [Ev_read p; Ev_write p new_text]))
    else (inr false, World (root w) (files w) (trace w ++ [Ev_read p])).
Proof.
  intros L R W new_text.
  unfold WrapDebugPrintsMain.process_swift_file, bind, read_text.
  rewrite L, R. unfold new_content. rewrite swift_process_lines_total.
  assert (T : new_text = join_newline (blocks [] (split_newline (text f))))
    by (unfold new_text; now rewrite swift_transform_blocks).
  rewrite <- T.
  destruct (any_guard [] (split_newline (text f))) eqn:G.
  - assert (N : str_eqb new_text (text f) = false).
    { destruct (str_eqb new_text (text f)) eqn:E; [|reflexivity].
      apply str_eqb_eq in E.
      pose proof (proj2 (swift_blocks_weight _ []) G) as Lt.
      unfold split_newline in *.
      destruct (split_from_cons (text f) []) as (x & xs & S).
      rewrite S in Lt, T.
      destruct (swift_blocks_cons x xs []) as (y & ys & B).
      rewrite B in Lt, T.
      rewrite <- !join_weight, <- T, E in Lt.
      rewrite <- S, join_split_from in Lt. cbn [rev app] in Lt. lia. }
    rewrite N. cbn [negb]. unfold write_text, ret. cbn [files root trace].
    rewrite L, W, <- app_assoc. reflexivity.
  - assert (N : str_eqb new_text (text f) = true).
    { apply str_eqb_eq. rewrite T, (swift_blocks_unchanged _ _ G).
      apply join_split. }
    rewrite N. reflexivity.
Qed.

Lemma process_swift_file_writes_only_new_guards_witness :
  WrapDebugPrintsMain.process_swift_file
    SampleWorlds.a_swift SampleWorlds.one_plain
  = (inr false,
     World (root SampleWorlds.one_plain) (files SampleWorlds.one_plain)
           [Ev_read SampleWorlds.a_swift]).
Proof.
  exact (@process_swift_file_writes_only_new_guards
           SampleWorlds.a_swift SampleWorlds.one_plain SampleWorlds.plain
           eq_refl eq_refl eq_refl).
Defined.

Lemma one_line_rev (cur : str) : one_line (rev cur) = one_line cur.
Proof. unfold one_line. now rewrite existsb_rev. Qed.

Lemma split_from_one_line (text cur : str) :
  one_line cur = true -> forallb one_line (split_from cur text) = true.
Proof.
  revert cur. induction text as [|c text IH]; intros cur H;
    cbn [split_from forallb].
  - now rewrite one_line_rev, H.
  - destruct (N.eqb c NEWLINE) eqn:E.
    + cbn [forallb]. now rewrite (IH [] eq_refl), one_line_rev, H.
    + apply IH. unfold one_line in *. cbn [existsb].
      apply negb_true_iff. apply negb_true_iff in H.
      apply orb_false_iff. now split.
Qed.

Lemma split_from_plain (l cur : str) :
  one_line l = true -> split_from cur l = [rev cur ++ l].
Proof.
  revert cur. induction l as [|c l IH]; intros cur H.
  - cbn [split_from]. now rewrite app_nil_r.
  - unfold one_line in H. cbn [existsb] in H.
    apply negb_true_iff, orb_false_iff in H as [Hc Hl].
    cbn [split_from]. rewrite Hc, IH.
    + cbn [rev]. now rewrite <- app_assoc.
    + unfold one_line. now rewrite Hl.
Qed.

Lemma split_from_line (l rest cur : str) :
  one_line l = true ->
  split_from cur (l ++ NEWLINE :: rest) = (rev cur ++ l) :: split_from [] rest.
Proof.
  revert cur. induction l as [|c l IH]; intros cur H.
  - cbn [app split_from]. now rewrite app_nil_r.
  - unfold one_line in H. cbn [existsb] in H.
    apply negb_true_iff, orb_false_iff in H as [Hc Hl].
    cbn [app split_from]. rewrite Hc, IH.
    + cbn [rev]. now rewrite <- app_assoc.
    + unfold one_line. now rewrite Hl.
Qed.

Lemma split_join (l : str) (ls : list str) :
  forallb one_line (l :: ls) = true ->
  split_newline (join_newline (l :: ls)) = l :: ls.
Proof.
  unfold split_newline. revert l. induction ls as [|m ls IH]; intros l H.
  - cbn [forallb] in H. apply andb_true_iff in H as [H _].
    cbn [join_newline]. now rewrite split_from_plain.
  - cbn [forallb] in H. apply andb_true_iff in H as [Hl H].
    change (join_newline (l :: m :: ls))
      with (l ++ NEWLINE :: join_newline (m :: ls)).
    rewrite split_from_line by exact Hl. cbn [rev app].
    now rewrite IH.
Qed.

Lemma swift_blocks_one_line (rest b : list str) :
  forallb one_line rest = true -> forallb one_line (blocks b rest) = true.
Proof.
  assert (G : forall k m, one_line m = true -> one_line (spaces k ++ m) = true).
  { intros k m H. unfold one_line in *.
    now rewrite existsb_app, spaces_no_newline. }
  revert b. induction rest as [|l a IH]; intros b H; [reflexivity|].
  cbn [forallb] in H. apply andb_true_iff in H as [Hl Ha].
  cbn [blocks]. rewrite forallb_app, (IH _ Ha), andb_true_r.
  unfold block. destruct (needs_guard b l); cbn [forallb];
    rewrite Hl; [|reflexivity].
  unfold open_guard, close_guard. now rewrite !G.
Qed.

(** X15. In what [process_swift_file] writes every line, taken from the
    file or made up, is a line of its own: splitting the new content at
    its newlines gives back the output lines one for one.  (The guard
    lines carry no newline of their own; the lines are joined by
    newlines.) *)
Theorem swift_output_lines_are_physical_lines (content : str) :
  exists new_lines,
    process_lines (split_newline content) = Some new_lines /\
    new_content content = Some (join_newline new_lines) /\
    split_newline (join_newline new_lines) = new_lines /\
    length (split_newline content) <= length new_lines.
Proof.
  exists (blocks [] (split_newline content)).
  unfold new_content. rewrite swift_process_lines_total.
  split; [reflexivity|]. split; [reflexivity|].
  pose proof (@split_from_one_line content [] eq_refl) as O.
  fold (split_newline content) in O.
  apply (swift_blocks_one_line _ []) in O.
  split.
  - destruct (split_from_cons content []) as (x & xs & S).
    unfold split_newline in *. rewrite S in O |- *.
    destruct (swift_blocks_cons x xs []) as (y & ys & B).
    rewrite B in O |- *. now apply split_join.
  - generalize (@nil str) as b. generalize (split_newline content) as ls.
    induction ls as [|l a IH]; intros b; [apply le_n|].
    cbn [blocks length]. rewrite length_app. specialize (IH (l :: b)).
    unfold block. destruct (needs_guard b l); cbn [length]; lia.
Qed.

End SwiftText.

(* ================================================================== *)
(** * Runs seen from the text of the file *)
(* ================================================================== *)

Section TextRuns.

Import FileText.

Lemma terminated_shape (l : str) :
  terminated l = true ->
  exists s, l = s ++ [NEWLINE] /\
            existsb (fun c => N.eqb c NEWLINE) s = false.
Proof.
  unfold terminated. intros H.
  destruct (rev l) as [|c s] eqn:E; [discriminate|].
  apply andb_true_iff in H as [Hc Hs].
  apply N.eqb_eq in Hc. subst c. apply negb_true_iff in Hs.
  exists (rev s). split.
  - rewrite <- (rev_involutive l), E. reflexivity.
  - now rewrite existsb_rev.
Qed.

Lemma terminated_snoc (s : str) :
  existsb (fun c => N.eqb c NEWLINE) s = false ->
  terminated (s ++ [NEWLINE]) = true.
Proof.
  intros H. unfold terminated. rewrite rev_app_distr. cbn [rev app].
  rewrite existsb_rev. apply andb_true_iff. split; [reflexivity|].
  apply negb_true_iff. exact H.
Qed.

Lemma readlines_concat (ls : list str) :
  forallb terminated ls = true -> readlines (concat ls) = ls.
Proof.
  unfold readlines. induction ls as [|l ls IH]; intros H; [reflexivity|].
  cbn [forallb] in H. apply andb_true_iff in H as [Hl Hls].
  destruct (terminated_shape l Hl) as (s & -> & Hs).
  cbn [concat]. rewrite <- app_assoc. cbn [app].
  rewrite readlines_from_app, readlines_from_line by exact Hs.
  cbn [rev app]. now rewrite IH.
Qed.

Lemma readlines_from_terminated (body cur : str) :
  existsb (fun c => N.eqb c NEWLINE) cur = false ->
  forallb terminated (readlines_from cur (body ++ [NEWLINE])) = true.
Proof.
  revert cur. induction body as [|c body IH]; intros cur H.
  - cbn [app readlines_from]. rewrite N.eqb_refl.
    cbn [readlines_from forallb rev]. rewrite andb_true_r.
    apply terminated_snoc. now rewrite existsb_rev.
  - cbn [app readlines_from]. destruct (N.eqb c NEWLINE) eqn:E.
    + cbn [forallb]. rewrite (IH [] eq_refl), andb_true_r.
      apply N.eqb_eq in E. subst c. cbn [rev].
      apply terminated_snoc. now rewrite existsb_rev.
    + apply IH. cbn [existsb]. apply orb_false_iff. now split.
Qed.

Lemma readlines_terminated (text : str) :
  ends_with_newline text = true ->
  forallb terminated (readlines text) = true.
Proof.
  unfold ends_with_newline. intros H.
  destruct (rev text) as [|c r] eqn:E.
  - apply (f_equal (@rev char)) in E. rewrite rev_involutive in E.
    now subst text.
  - apply N.eqb_eq in H. subst c.
    apply (f_equal (@rev char)) in E. rewrite rev_involutive in E.
    cbn [rev] in E. subst text.
    now apply readlines_from_terminated.
Qed.

Lemma blocks_terminated (rest b : list str) :
  forallb terminated rest = true ->
  forallb terminated (WrapPrints.blocks b rest) = true.
Proof.
  assert (G : forall k m,
             existsb (fun c => N.eqb c NEWLINE) m = false ->
             terminated (spaces k ++ m ++ [NEWLINE]) = true).
  { intros k m H. rewrite app_assoc. apply terminated_snoc.
    now rewrite existsb_app, spaces_no_newline. }
  revert b. induction rest as [|l a IH]; intros b H; [reflexivity|].
  cbn [forallb] in H. apply andb_true_iff in H as [Hl Ha].
  cbn [WrapPrints.blocks]. rewrite forallb_app, (IH _ Ha), andb_true_r.
  unfold WrapPrints.block.
  destruct (WrapPrints.needs_guard b l a); cbn [forallb];
    rewrite Hl; [|reflexivity].
  unfold WrapPrints.open_guard, WrapPrints.close_guard.
  now rewrite !G.
Qed.

Lemma concat_terminated (ls : list str) :
  forallb terminated ls = true -> ends_with_newline (concat ls) = true.
Proof.
  induction ls as [|l ls IH]; intros H; [reflexivity|].
  cbn [forallb] in H. apply andb_true_iff in H as [Hl Hls].
  specialize (IH Hls). cbn [concat]. unfold ends_with_newline in *.
  rewrite rev_app_distr.
  destruct (rev (concat ls)) as [|c r]; [|exact IH].
  cbn [app]. destruct (terminated_shape l Hl) as (s & -> & _).
  rewrite rev_app_distr. reflexivity.
Qed.

Lemma iter_lines_terminated (text : str) (n : nat) :
  ends_with_newline text = true ->
  forallb terminated (Nat.iter n WrapPrints.transform (readlines text)) = true
  /\
  Nat.iter n after_process_file text
  = writelines (Nat.iter n WrapPrints.transform (readlines text)).
Proof.
  intros H. induction n as [|n [IH1 IH2]].
  - cbn [Nat.iter nat_rect]. split; [now apply readlines_terminated|].
    symmetry. apply writelines_readlines.
  - change (Nat.iter (S n) after_process_file text)
      with (after_process_file (Nat.iter n after_process_file text)).
    change (Nat.iter (S n) WrapPrints.transform (readlines text))
      with (WrapPrints.transform
              (Nat.iter n WrapPrints.transform (readlines text))).
    split.
    + rewrite transform_blocks. now apply blocks_terminated.
    + rewrite IH2. unfold after_process_file, writelines.
      now rewrite readlines_concat.
Qed.

(** X16. For a file whose text is empty or ends in a newline, the lines
    [process_file] writes are the lines a later [readlines] of the file
    returns, one for one, and the new text ends in a newline again.  So
    [n] runs of [process_file] on such a file leave the text of [n] runs
    of its loop on the lines. *)
Theorem written_lines_are_read_back (text : str) (n : nat) :
  ends_with_newline text = true ->
  readlines (after_process_file text)
  = WrapPrints.transform (readlines text) /\
  ends_with_newline (after_process_file text) = true /\
  Nat.iter n after_process_file text
  = writelines (Nat.iter n WrapPrints.transform (readlines text)).
Proof.
  intros H.
  pose proof (proj1 (iter_lines_terminated text 1 H)) as B.
  cbn [Nat.iter nat_rect] in B.
  split; [|split].
  - unfold after_process_file, writelines. now apply readlines_concat.
  - unfold after_process_file, writelines. now apply concat_terminated.
  - apply iter_lines_terminated, H.
Qed.

Lemma written_lines_are_read_back_witness :
  ends_with_newline (concat Samples.debug_block) = true /\
  Nat.iter 2 after_process_file (concat Samples.debug_block)
  = writelines (Nat.iter 2 WrapPrints.transform
                  (readlines (concat Samples.debug_block))).
Proof.
  split; [reflexivity|].
  apply (@written_lines_are_read_back (concat Samples.debug_block) 2).
  reflexivity.
Defined.

(** X17. Runs of [process_file] on a file whose text is empty or ends in
    a newline come to rest: with [k] the number of diagnostics without
    an exemption pattern in the file, the text after [k + 1] runs is the
    text after [k] runs. *)
Theorem file_text_settles (text : str) (m : nat) :
  ends_with_newline text = true ->
  Linewise.wrappable_count (readlines text) <= m ->
  Nat.iter (S m) after_process_file text = Nat.iter m after_process_file text.
Proof.
  intros H K.
  destruct (iter_lines_terminated text (S m) H) as [_ ->].
  destruct (iter_lines_terminated text m H) as [_ ->].
  f_equal.
  destruct (iter_settles_or_grows (readlines text) m) as [E|L]; [exact E|].
  pose proof (wrapped_copy_length
                (iter_wrapped_copy (S m) (readlines text))).
  lia.
Qed.

Lemma file_text_settles_witness :
  ends_with_newline (concat Samples.debug_block) = true /\
  Linewise.wrappable_count (readlines (concat Samples.debug_block)) <= 2 /\
  Nat.iter 3 after_process_file (concat Samples.debug_block)
  = Nat.iter 2 after_process_file (concat Samples.debug_block).
Proof.
  split; [reflexivity|]. split; [vm_compute; lia|].
  apply file_text_settles; [reflexivity|vm_compute; lia].
Defined.

(** X18. Runs of [process_swift_file] seen from the text: splitting what
    a run wrote gives the lines the run made, so [n] runs on a file leave
    the text of [n] runs of the loop on its lines; and when no
    diagnostic line of the file itself holds [#if DEBUG], a second run
    leaves the text the first run wrote. *)
Theorem swift_file_text_runs (content : str) (n : nat) :
  Nat.iter n after_process_swift_file content
  = join_newline (Nat.iter n WrapDebugPrints.transform
                    (split_newline content)) /\
  (SwiftViews.print_mentions_guard (split_newline content) = false ->
   after_process_swift_file (after_process_swift_file content)
   = after_process_swift_file content).
Proof.
  assert (I : forall k,
           forallb SwiftViews.one_line
             (Nat.iter k WrapDebugPrints.transform (split_newline content))
           = true /\
           (exists x xs,
              Nat.iter k WrapDebugPrints.transform (split_newline content)
              = x :: xs) /\
           Nat.iter k after_process_swift_file content
           = join_newline (Nat.iter k WrapDebugPrints.transform
                             (split_newline content))).
  { induction k as [|k (IH1 & (x & xs & IH2) & IH3)].
    - cbn [Nat.iter nat_rect]. split; [|split].
      + exact (@split_from_one_line content [] eq_refl).
      + apply split_from_cons.
      + symmetry. apply join_split.
    - change (Nat.iter (S k) after_process_swift_file content)
        with (after_process_swift_file
                (Nat.iter k after_process_swift_file content)).
      change (Nat.iter (S k) WrapDebugPrints.transform (split_newline content))
        with (WrapDebugPrints.transform
                (Nat.iter k WrapDebugPrints.transform
                   (split_newline content))).
      split; [|split].
      + rewrite swift_transform_blocks. now apply swift_blocks_one_line.
      + rewrite swift_transform_blocks, IH2. apply swift_blocks_cons.
      + rewrite IH3. unfold after_process_swift_file.
        rewrite IH2 in IH1 |- *. now rewrite split_join. }
  split; [apply I|].
  intros N.
  destruct (I 2) as (_ & _ & E2). destruct (I 1) as (_ & _ & E1).
  cbn [Nat.iter nat_rect] in E1, E2. rewrite E2, E1.
  f_equal. now apply swift_second_run_changes_nothing_helper.
Qed.

Lemma swift_file_text_runs_witness :
  SwiftViews.print_mentions_guard
    (split_newline (concat Samples.spaced_block)) = false /\
  after_process_swift_file
    (after_process_swift_file (concat Samples.spaced_block))
  = after_process_swift_file (concat Samples.spaced_block).
Proof.
  split; [reflexivity|].
  apply (proj2 (swift_file_text_runs (concat Samples.spaced_block) 0)).
  reflexivity.
Defined.

End TextRuns.

(* ================================================================== *)
(** * Comment lines *)
(* ================================================================== *)

Section CommentLines.

Lemma lstrip_whitespace (ws s : str) :
  forallb isspace ws = true -> lstrip (ws ++ s) = lstrip s.
Proof.
  induction ws as [|c ws IH]; intros H; [reflexivity|].
  cbn [forallb] in H. apply andb_true_iff in H as [Hc Hws].
  cbn [app lstrip]. rewrite Hc. now apply IH.
Qed.

Lemma lstrip_keeps_tail (xs : str) (a : char) (t : str) :
  isspace a = false -> exists ys, lstrip (xs ++ a :: t) = ys ++ a :: t.
Proof.
  intros Ha. induction xs as [|x xs [ys IH]].
  - exists []. cbn [app lstrip]. now rewrite Ha.
  - cbn [app lstrip]. destruct (isspace x).
    + now exists ys.
    + now exists (x :: xs).
Qed.

Lemma strip_comment (ws rest : str) :
  forallb isspace ws = true ->
  startswith (strip (ws ++ lit "//" ++ rest)) (lit "//") = true.
Proof.
  intros H. unfold strip, rstrip. rewrite lstrip_whitespace by exact H.
  change (lit "//" ++ rest) with (47%N :: 47%N :: rest).
  change (lstrip (47%N :: 47%N :: rest)) with (47%N :: 47%N :: rest).
  cbn [rev]. rewrite <- app_assoc. cbn [app].
  destruct (@lstrip_keeps_tail (rev rest) 47%N [47%N] eq_refl) as [ys E].
  unfold str, char in *. rewrite E.
  rewrite rev_app_distr. simpl. now destruct (rev ys).
Qed.

(** X19. A line whose first characters after any leading whitespace are
    [//] is never wrapped, by either script, wherever it stands and
    whatever it mentions, [print(] included: it is appended alone. *)
Theorem comment_lines_are_never_wrapped (ws rest : str) :
  forallb isspace ws = true ->
  let l : str := ws ++ lit "//" ++ rest in
  WrapPrints.is_print_statement l = false /\
  (forall (lines : list str) (i : nat),
     nth_error lines i = Some l -> WrapPrints.emitted lines i = [l]) /\
  (forall before after, WrapPrints.block before l after = [l]) /\
  (forall before, WrapDebugPrints.block before l = [l]).
Proof.
  intros H l.
  assert (P : WrapPrints.is_print_statement l = false).
  { unfold WrapPrints.is_print_statement, l.
    change WrapPrints.COMMENT with (lit "//").
    rewrite strip_comment by exact H. apply andb_false_r. }
  split; [exact P|]. split; [|split].
  - intros lines i N. unfold WrapPrints.emitted. now rewrite N, P.
  - intros before after. unfold WrapPrints.block, WrapPrints.needs_guard.
    now rewrite P.
  - intros before.
    unfold WrapDebugPrints.block, WrapDebugPrints.needs_guard.
    change (WrapDebugPrints.is_print_statement l)
      with (WrapPrints.is_print_statement l).
    now rewrite P.
Qed.

Lemma comment_lines_are_never_wrapped_witness :
  forallb isspace [SPACE; TAB] = true /\
  WrapPrints.transform [[SPACE; TAB] ++ lit "//" ++ lit " print(x)"]
  = [[SPACE; TAB] ++ lit "//" ++ lit " print(x)"].
Proof.
  split; [reflexivity|].
  rewrite transform_blocks. cbn [WrapPrints.blocks].
  destruct (@comment_lines_are_never_wrapped [SPACE; TAB] (lit " print(x)")
              eq_refl) as [_ [_ [B _]]].
  rewrite B. reflexivity.
Defined.

End CommentLines.

(* ================================================================== *)
(** * The two scripts one after the other *)
(* ================================================================== *)

Section OneAfterTheOther.

Import Together.

Lemma blocks_over_swift_blocks (rest : list str) :
  forall b b',
    Spec.no_open_guard rest = true ->
    SwiftViews.below_if_debug b = false ->
    WrapPrints.blocks b' (WrapDebugPrints.blocks b rest)
    = WrapDebugPrints.blocks b rest.
Proof.
  induction rest as [|l a IH]; intros b b' N Hb; [reflexivity|].
  unfold Spec.no_open_guard in N. cbn [forallb] in N.
  apply andb_true_iff in N as [Nl Na]. apply negb_true_iff in Nl.
  cbn [WrapDebugPrints.blocks]. unfold WrapDebugPrints.block.
  unfold WrapDebugPrints.needs_guard.
  fold (SwiftViews.below_if_debug b). rewrite Hb. cbn [negb].
  rewrite andb_true_r.
  destruct (WrapDebugPrints.is_print_statement l) eqn:P;
    cbn [app WrapPrints.blocks]; unfold WrapPrints.block.
  - unfold WrapPrints.needs_guard at 1 3.
    change (WrapPrints.is_print_statement (WrapDebugPrints.open_guard l))
      with (WrapDebugPrints.is_print_statement (WrapDebugPrints.open_guard l)).
    change (WrapPrints.is_print_statement (WrapDebugPrints.close_guard l))
      with (WrapDebugPrints.is_print_statement (WrapDebugPrints.close_guard l)).
    rewrite swift_open_guard_not_print, swift_close_guard_not_print.
    cbn [andb app].
    unfold WrapPrints.needs_guard, WrapPrints.wrapped_between.
    cbn [firstn existsb].
    change (contains WrapPrints.IF_DEBUG (WrapDebugPrints.open_guard l))
      with (contains WrapDebugPrints.IF_DEBUG (WrapDebugPrints.open_guard l)).
    rewrite swift_open_guard_if_debug.
    rewrite (proj2 (swift_close_guard_markers l)).
    cbn [orb andb negb]. rewrite andb_false_r. cbn [app].
    do 3 f_equal. now apply IH.
  - unfold WrapPrints.needs_guard.
    change (WrapPrints.is_print_statement l)
      with (WrapDebugPrints.is_print_statement l).
    rewrite P. cbn [andb app]. f_equal. now apply IH.
Qed.

Lemma swift_blocks_over_wrap_lines (rest : list str) :
  forall b',
    no_exempt_diagnostic rest = true ->
    WrapDebugPrints.blocks b' (flat_map Linewise.wrap_line rest)
    = flat_map Linewise.wrap_line rest.
Proof.
  induction rest as [|l a IH]; intros b' N; [reflexivity|].
  unfold no_exempt_diagnostic in N. cbn [forallb] in N.
  apply andb_true_iff in N as [Nl Na]. apply negb_true_iff in Nl.
  cbn [flat_map]. unfold Linewise.wrap_line at 1 3, Linewise.wrappable.
  destruct (WrapPrints.is_print_statement l) eqn:P; cbn [andb] in Nl |- *.
  - rewrite Nl. cbn [negb app WrapDebugPrints.blocks].
    unfold WrapDebugPrints.block, WrapDebugPrints.needs_guard.
    change (WrapDebugPrints.is_print_statement (WrapPrints.open_guard l))
      with (WrapPrints.is_print_statement (WrapPrints.open_guard l)).
    change (WrapDebugPrints.is_print_statement (WrapPrints.close_guard l))
      with (WrapPrints.is_print_statement (WrapPrints.close_guard l)).
    change (contains WrapDebugPrints.IF_DEBUG (WrapPrints.open_guard l))
      with (contains WrapPrints.IF_DEBUG (WrapPrints.open_guard l)).
    rewrite open_guard_not_print, close_guard_not_print, open_guard_if_debug.
    cbn [andb negb app]. rewrite andb_false_r. cbn [app].
    do 3 f_equal. now apply IH.
  - cbn [app WrapDebugPrints.blocks].
    unfold WrapDebugPrints.block, WrapDebugPrints.needs_guard.
    change (WrapDebugPrints.is_print_statement l)
      with (WrapPrints.is_print_statement l).
    rewrite P. cbn [andb app]. f_equal. now apply IH.
Qed.

(** X20. The two scripts know each other's guards.  On a file without
    [#if DEBUG], running [process_file] over what [process_swift_file]
    wrote changes nothing; and when the file has no diagnostic with an
    exemption pattern either, running [process_swift_file] over what
    [process_file] wrote changes nothing. *)
Theorem scripts_accept_each_others_output (lines : list str) :
  Spec.no_open_guard lines = true ->
  WrapPrints.transform (WrapDebugPrints.transform lines)
  = WrapDebugPrints.transform lines /\
  (no_exempt_diagnostic lines = true ->
   WrapDebugPrints.transform (WrapPrints.transform lines)
   = WrapPrints.transform lines).
Proof.
  intros N. split.
  - rewrite transform_blocks, swift_transform_blocks.
    now apply blocks_over_swift_blocks.
  - intros E. rewrite swift_transform_blocks, transform_blocks.
    rewrite (blocks_linewise lines []) by (left; now split).
    now apply swift_blocks_over_wrap_lines.
Qed.

Lemma scripts_accept_each_others_output_witness :
  Spec.no_open_guard Samples.mixed = true /\
  WrapPrints.transform (WrapDebugPrints.transform Samples.mixed)
  = WrapDebugPrints.transform Samples.mixed.
Proof.
  split; [reflexivity|].
  exact (proj1 (@scripts_accept_each_others_output Samples.mixed eq_refl)).
Defined.

Lemma swift_wrapped_copy_refl (xs : list str) : swift_wrapped_copy xs xs.
Proof. induction xs; constructor; assumption. Qed.

Lemma swift_blocks_wrapped_copy (xs ys : list str) :
  swift_wrapped_copy xs ys ->
  forall b, swift_wrapped_copy xs (WrapDebugPrints.blocks b ys).
Proof.
  induction 1 as [|x xs ys _ IH|x xs ys Hx _ IH]; intros b.
  - constructor.
  - cbn [WrapDebugPrints.blocks]. unfold WrapDebugPrints.block.
    destruct (WrapDebugPrints.needs_guard b x) eqn:G; cbn [app].
    + apply swc_wrap; [|apply IH].
      unfold WrapDebugPrints.needs_guard in G.
      now apply andb_true_iff in G.
    + apply swc_keep, IH.
  - cbn [WrapDebugPrints.blocks]. unfold WrapDebugPrints.block.
    unfold WrapDebugPrints.needs_guard.
    rewrite swift_open_guard_not_print, swift_close_guard_not_print,
      swift_open_guard_if_debug.
    cbn [andb negb app]. rewrite andb_false_r. cbn [app].
    apply swc_wrap; [exact Hx|apply IH].
Qed.

Lemma swift_wrapped_copy_length (xs ys : list str) :
  swift_wrapped_copy xs ys ->
  length ys <= length xs + 2 * print_count xs.
Proof.
  unfold print_count.
  induction 1 as [|x xs ys _ IH|x xs ys Hx _ IH]; cbn [length filter].
  - lia.
  - destruct (WrapDebugPrints.is_print_statement x); cbn [length]; lia.
  - rewrite Hx. cbn [length]. lia.
Qed.

Lemma swift_iter_wrapped_copy (n : nat) (lines : list str) :
  swift_wrapped_copy lines (Nat.iter n WrapDebugPrints.transform lines).
Proof.
  induction n as [|n IH]; [apply swift_wrapped_copy_refl|].
  change (Nat.iter (S n) WrapDebugPrints.transform lines)
    with (WrapDebugPrints.transform
            (Nat.iter n WrapDebugPrints.transform lines)).
  rewrite swift_transform_blocks. now apply swift_blocks_wrapped_copy.
Qed.

Lemma swift_transform_grows (lines : list str) :
  WrapDebugPrints.transform lines = lines \/
  length lines + 2 <= length (WrapDebugPrints.transform lines).
Proof.
  rewrite swift_transform_blocks.
  destruct (SwiftViews.any_guard [] lines) eqn:G.
  - right. revert G. generalize (@nil str) as b.
    assert (Le : forall rest b,
               length rest <= length (WrapDebugPrints.blocks b rest)).
    { induction rest as [|l a IH]; intros b; [apply le_n|].
      cbn [WrapDebugPrints.blocks length]. rewrite length_app.
      specialize (IH (l :: b)). unfold WrapDebugPrints.block.
      destruct (WrapDebugPrints.needs_guard b l); cbn [length]; lia. }
    induction lines as [|l a IH]; intros b G; [discriminate|].
    cbn [SwiftViews.any_guard] in G.
    cbn [WrapDebugPrints.blocks length]. rewrite length_app.
    unfold WrapDebugPrints.block.
    destruct (WrapDebugPrints.needs_guard b l); cbn [length].
    + specialize (Le a (l :: b)). lia.
    + cbn [orb] in G. specialize (IH (l :: b) G). lia.
  - left. now apply swift_blocks_unchanged.
Qed.

Lemma swift_iter_settles_or_grows (lines : list str) (j : nat) :
  Nat.iter (S j) WrapDebugPrints.transform lines
  = Nat.iter j WrapDebugPrints.transform lines \/
  length lines + 2 * S j
  <= length (Nat.iter (S j) WrapDebugPrints.transform lines).
Proof.
  induction j as [|j IH].
  - cbn [Nat.iter nat_rect].
    destruct (swift_transform_grows lines) as [E|L]; [now left|right; lia].
  - change (Nat.iter (S (S j)) WrapDebugPrints.transform lines)
      with (WrapDebugPrints.transform
              (Nat.iter (S j) WrapDebugPrints.transform lines)).
    destruct IH as [E|L].
    + left. rewrite E at 1. reflexivity.
    + destruct (swift_transform_grows
                  (Nat.iter (S j) WrapDebugPrints.transform lines))
        as [E'|L']; [now left|right; lia].
Qed.

(** X21. However often a file is run through [process_swift_file], no
    line gets a second guard pair from it: the result of [n] runs is the
    first input where some diagnostics stand between the two guard lines
    made for them.  With [k] the number of diagnostic lines of the first
    input, run [k + 1] and every later run change nothing. *)
Theorem swift_runs_settle (lines : list str) (n m : nat) :
  swift_wrapped_copy lines (Nat.iter n WrapDebugPrints.transform lines) /\
  length (Nat.iter n WrapDebugPrints.transform lines)
  <= length lines + 2 * print_count lines /\
  (print_count lines <= m ->
   Nat.iter (S m) WrapDebugPrints.transform lines
   = Nat.iter m WrapDebugPrints.transform lines).
Proof.
  split; [apply swift_iter_wrapped_copy|].
  split; [apply swift_wrapped_copy_length, swift_iter_wrapped_copy|].
  intros H.
  destruct (swift_iter_settles_or_grows lines m) as [E|L]; [exact E|].
  pose proof (swift_wrapped_copy_length
                (swift_iter_wrapped_copy (S m) lines)).
  lia.
Qed.

Lemma swift_runs_settle_witness :
  print_count Samples.debug_pair <= 2 /\
  Nat.iter 3 WrapDebugPrints.transform Samples.debug_pair
  = Nat.iter 2 WrapDebugPrints.transform Samples.debug_pair.
Proof.
  split; [vm_compute; lia|].
  apply (proj2 (proj2 (swift_runs_settle Samples.debug_pair 0 2))).
  vm_compute. lia.
Defined.

End OneAfterTheOther.
